(** * Telemetry bootstrap and request-context propagation of the todo service

    A shallow embedding of [src/tracer.ts], its sibling bootstrap variant and
    [src/todo-service.ts], together with the properties the specification
    states about them.

    The file is organised leaf-first, like the specification:
    - [Wire]      : hexadecimal and percent encodings, field splitting;
    - [Carrier]   : the composite W3C traceparent + baggage propagator;
    - [Sampling]  : the parent-based sampler around the root policy;
    - [Js], [Otel]: thrown values, effects, the world and its computations;
    - [Tracer], [TracerVariant] : the two [start] functions;
    - [Service]   : the Express application of [todo-service.ts];
    - [Props]     : the vocabulary in which the properties are stated;
    then the lemmas and theorems, in the same order.

    The propagators, the parent-based sampler and [OurSampler] are not
    part of the sources at hand; they are modelled from the specification
    and marked so. *)

From Stdlib Require Import NArith ZArith Lia Bool Ascii String List DecimalString.
From stdpp Require Import gmap strings list fin_maps.

Local Open Scope N_scope.

(* ===================================================================== *)
(** ** Wire-level encodings *)
(* ===================================================================== *)

Module Wire.

(** Modelled from the spec: the encodings the header formats of the
    propagators are built from (library code, not under [src/]).  Header
    values are byte strings; the codecs work on the list of their
    characters. *)
Definition bytes_of (s : string) : list ascii := list_ascii_of_string s.
Definition text_of (l : list ascii) : string := string_of_list_ascii l.

(** Lower-case hexadecimal digit of a value below 16. *)
Definition hex_digit (d : N) : ascii :=
  if d <? 10 then ascii_of_N (48 + d) else ascii_of_N (87 + d).

(** Upper-case hexadecimal digit, as percent-encoding emits it. *)
Definition hex_digit_upper (d : N) : ascii :=
  if d <? 10 then ascii_of_N (48 + d) else ascii_of_N (55 + d).

(** Value of a lower-case hexadecimal digit ([0-9a-f]). *)
Definition hex_value (c : ascii) : option N :=
  let n := N_of_ascii c in
  if (48 <=? n) && (n <=? 57) then Some (n - 48)
  else if (97 <=? n) && (n <=? 102) then Some (n - 87)
  else None.

(** Value of a hexadecimal digit of either case ([0-9a-fA-F]). *)
Definition hex_value_any (c : ascii) : option N :=
  let n := N_of_ascii c in
  if (48 <=? n) && (n <=? 57) then Some (n - 48)
  else if (97 <=? n) && (n <=? 102) then Some (n - 87)
  else if (65 <=? n) && (n <=? 70) then Some (n - 55)
  else None.

(** Modelled from the spec: [hex_fixed w n] is the id [n] as [w]
    lower-case hex digits, most significant first (the digits above the
    width are dropped). *)
Fixpoint hex_fixed (w : nat) (n : N) : list ascii :=
  match w with
  | O => []
  | S w' => hex_fixed w' (n / 16) ++ [hex_digit (n mod 16)]
  end.

Fixpoint parse_hex_acc (acc : N) (s : list ascii) : option N :=
  match s with
  | [] => Some acc
  | c :: s' =>
      match hex_value c with
      | Some d => parse_hex_acc (16 * acc + d) s'
      | None => None
      end
  end.

(** Modelled from the spec: reads a run of lower-case hex digits; [None]
    on any other character. *)
Definition parse_hex (s : list ascii) : option N := parse_hex_acc 0 s.

(** Splits a text at every occurrence of the separator; the result always
    has at least one field. *)
Fixpoint split_on (sep : ascii) (s : list ascii) : list (list ascii) :=
  match s with
  | [] => [[]]
  | c :: s' =>
      if Ascii.eqb c sep then [] :: split_on sep s'
      else match split_on sep s' with
           | f :: fs => (c :: f) :: fs
           | [] => [[c]]
           end
  end.

(** Splits a text at the first occurrence of the separator. *)
Fixpoint split_first (sep : ascii) (s : list ascii)
  : option (list ascii * list ascii) :=
  match s with
  | [] => None
  | c :: s' =>
      if Ascii.eqb c sep then Some ([], s')
      else match split_first sep s' with
           | Some (a, b) => Some (c :: a, b)
           | None => None
           end
  end.

Fixpoint join (sep : ascii) (fields : list (list ascii)) : list ascii :=
  match fields with
  | [] => []
  | [f] => f
  | f :: rest => f ++ sep :: join sep rest
  end.

(** Modelled from the spec: the characters that URL-encoding of a
    component leaves alone, letters, digits and [- _ . ! ~ * ' ( )]. *)
Definition unreserved (c : ascii) : bool :=
  let n := N_of_ascii c in
  ((48 <=? n) && (n <=? 57)) || ((65 <=? n) && (n <=? 90))
  || ((97 <=? n) && (n <=? 122))
  || (n =? 45) || (n =? 95) || (n =? 46) || (n =? 33) || (n =? 126)
  || (n =? 42) || (n =? 39) || (n =? 40) || (n =? 41).

Definition pct_encode_char (c : ascii) : list ascii :=
  if unreserved c then [c]
  else let n := N_of_ascii c in
       ["%"%char; hex_digit_upper (n / 16); hex_digit_upper (n mod 16)].

(** Modelled from the spec: URL-encoding, every other byte as [%XX]. *)
Definition pct_encode (s : list ascii) : list ascii :=
  flat_map pct_encode_char s.

(** Modelled from the spec: URL-decoding; it fails ([None]) on a percent
    sign that is not followed by two hexadecimal digits. *)
Fixpoint pct_decode (s : list ascii) : option (list ascii) :=
  match s with
  | [] => Some []
  | c :: s1 =>
      if Ascii.eqb c "%"%char then
        match s1 with
        | a :: b :: s3 =>
            match hex_value_any a, hex_value_any b with
            | Some x, Some y =>
                match pct_decode s3 with
                | Some r => Some (ascii_of_N (16 * x + y) :: r)
                | None => None
                end
            | _, _ => None
            end
        | _ => None
        end
      else match pct_decode s1 with
           | Some r => Some (c :: r)
           | None => None
           end
  end.

End Wire.

(* ===================================================================== *)
(** ** Context Carrier: the composite propagator of [tracer.ts] *)
(* ===================================================================== *)

Module Carrier.
Import Wire.

(** The identifying part of an execution context: 128-bit trace id, 64-bit
    span id and the sampled flag. *)
Record SpanContext := mkSpanContext {
  traceId : N;
  spanId : N;
  sampled : bool
}.

(** One baggage value: [{ value, metadata? }]. *)
Record BaggageEntry := mkEntry {
  value : string;
  metadata : option string
}.

(** A context as the propagators see it.  [spanContext = None] is a root:
    there is no parent.  The baggage is an ordered mapping, kept as an
    association list in insertion order. *)
Record Context := mkContext {
  spanContext : option SpanContext;
  baggage : list (string * BaggageEntry)
}.

Definition ROOT_CONTEXT : Context := mkContext None [].

(** The interface [TextMapPropagator]: both directions work on a carrier,
    here the header object (a map from header name to header value). *)
Record TextMapPropagator := mkPropagator {
  inject : Context -> gmap string string -> gmap string string;
  extract : Context -> gmap string string -> Context
}.

Definition TRACE_PARENT_HEADER : string := "traceparent".
Definition BAGGAGE_HEADER : string := "baggage".

(** Modelled from the spec: ids are 128 and 64 bits wide; the all-zero id
    stands for no span. *)
Definition isValidTraceId (n : N) : bool := (0 <? n) && (n <? 2 ^ 128).
Definition isValidSpanId (n : N) : bool := (0 <? n) && (n <? 2 ^ 64).

Definition flags_of (b : bool) : N := if b then 1 else 0.

(** Modelled from the spec: the traceparent serialisation of the library
    class [W3CTraceContextPropagator] (its code is not under [src/]):
    "version-traceid-spanid-flags", version [00], ids as 32 and 16
    lower-case hex digits, flags as 2 hex digits whose lowest bit is the
    sampled flag. *)
Definition render_traceparent (sc : SpanContext) : list ascii :=
  bytes_of "00" ++ "-"%char :: hex_fixed 32 (traceId sc)
    ++ "-"%char :: hex_fixed 16 (spanId sc)
    ++ "-"%char :: hex_fixed 2 (flags_of (sampled sc)).

(** Modelled from the spec: the inverse of [render_traceparent]; any text
    that is not of that shape, or that carries an all-zero id, yields no
    parent. *)
Definition parse_traceparent (s : list ascii) : option SpanContext :=
  match split_on "-"%char s with
  | [v; t; sp; f] =>
      if negb (String.eqb (text_of v) "00") then None
      else if negb ((length t =? 32)%nat && (length sp =? 16)%nat
                    && (length f =? 2)%nat) then None
      else
        match parse_hex t, parse_hex sp, parse_hex f with
        | Some tid, Some sid, Some fl =>
            if isValidTraceId tid && isValidSpanId sid
            then Some (mkSpanContext tid sid (N.testbit fl 0))
            else None
        | _, _, _ => None
        end
  | _ => None
  end.

(** Modelled from the spec: [W3CTraceContextPropagator] (library code).
    Injection writes the header only when there is a valid span context;
    extraction leaves the context untouched when the header is missing or
    malformed. *)
Definition W3CTraceContextPropagator : TextMapPropagator := {|
  inject ctx carrier :=
    match spanContext ctx with
    | Some sc =>
        if isValidTraceId (traceId sc) && isValidSpanId (spanId sc)
        then <[TRACE_PARENT_HEADER := text_of (render_traceparent sc)]> carrier
        else carrier
    | None => carrier
    end;
  extract ctx carrier :=
    match carrier !! TRACE_PARENT_HEADER with
    | Some h =>
        match parse_traceparent (bytes_of h) with
        | Some sc => mkContext (Some sc) (baggage ctx)
        | None => ctx
        end
    | None => ctx
    end
|}.

(** Modelled from the spec: one member of the baggage header,
    [key=value] with both sides URL-encoded, followed by [;metadata] when
    the entry carries metadata. *)
Definition render_entry (kv : string * BaggageEntry) : list ascii :=
  pct_encode (bytes_of kv.1) ++ "="%char :: pct_encode (bytes_of (value kv.2))
    ++ match metadata kv.2 with
       | Some m => ";"%char :: bytes_of m
       | None => []
       end.

(** Modelled from the spec: the inverse of [render_entry]; a member
    without [=] or with a broken escape does not parse. *)
Definition parse_entry (s : list ascii) : option (string * BaggageEntry) :=
  let '(kvpart, md) :=
    match split_first ";"%char s with
    | Some (kv, m) => (kv, Some (text_of m))
    | None => (s, None)
    end in
  match split_first "="%char kvpart with
  | Some (k, v) =>
      match pct_decode k, pct_decode v with
      | Some k', Some v' => Some (text_of k', mkEntry (text_of v') md)
      | _, _ => None
      end
  | None => None
  end.

(** Modelled from the spec: the baggage header, members joined by
    commas. *)
Definition render_baggage (b : list (string * BaggageEntry)) : list ascii :=
  join ","%char (map render_entry b).

(** Modelled from the spec: reading the baggage header; members that do
    not parse are skipped. *)
Definition parse_baggage (s : list ascii) : list (string * BaggageEntry) :=
  omap parse_entry (split_on ","%char s).

(** Modelled from the spec: [W3CBaggagePropagator] (library code).  The
    header is a comma-separated list of members; an empty baggage writes no
    header, a missing or empty header leaves the context as it is. *)
Definition W3CBaggagePropagator : TextMapPropagator := {|
  inject ctx carrier :=
    match baggage ctx with
    | [] => carrier
    | b => <[BAGGAGE_HEADER := text_of (render_baggage b)]> carrier
    end;
  extract ctx carrier :=
    match carrier !! BAGGAGE_HEADER with
    | Some h =>
        match bytes_of h with
        | [] => ctx
        | s => mkContext (spanContext ctx) (parse_baggage s)
        end
    | None => ctx
    end
|}.

(** Modelled from the spec: [CompositePropagator] (library code) runs its
    members in the order given, threading the carrier on injection and the
    context on extraction. *)
Definition CompositePropagator (propagators : list TextMapPropagator)
  : TextMapPropagator := {|
  inject ctx carrier :=
    fold_left (fun car p => inject p ctx car) propagators carrier;
  extract ctx carrier :=
    fold_left (fun c p => extract p c carrier) propagators ctx
|}.

(** [tracer.ts], lines 103-105: the propagator handed to the SDK. *)
Definition textMapPropagator : TextMapPropagator :=
  CompositePropagator [W3CTraceContextPropagator; W3CBaggagePropagator].

(** A valid execution context: a span context with non-zero ids of the
    stated widths, and baggage whose metadata is free of the member
    separator. *)
Definition valid_entry (kv : string * BaggageEntry) : Prop :=
  match metadata kv.2 with
  | Some m => ~ In ","%char (bytes_of m)
  | None => True
  end.

Definition valid_context (c : Context) : Prop :=
  (exists sc, spanContext c = Some sc
              /\ 0 < traceId sc < 2 ^ 128 /\ 0 < spanId sc < 2 ^ 64)
  /\ Forall valid_entry (baggage c).

(** A well-formed traceparent header value. *)
Definition well_formed_traceparent (s : list ascii) : Prop :=
  exists tid sid fl,
    0 < tid < 2 ^ 128 /\ 0 < sid < 2 ^ 64 /\ fl < 256
    /\ s = bytes_of "00" ++ "-"%char :: hex_fixed 32 tid
             ++ "-"%char :: hex_fixed 16 sid
             ++ "-"%char :: hex_fixed 2 fl.

End Carrier.

(* ===================================================================== *)
(** ** Sampler: [new ParentBasedSampler({ root: new OurSampler() })] *)
(* ===================================================================== *)

Module Sampling.
Import Carrier.

Inductive SamplingDecision := NOT_RECORD | RECORD_AND_SAMPLED.

(** The constructor expression a bootstrap hands to the SDK. *)
Inductive SamplerSpec :=
| AlwaysOn
| AlwaysOff
| Our
| ParentBased (root : SamplerSpec).

Section Samplers.

(** Whatever state sampler objects keep between calls; a sampler may read
    and change it. *)
Variable S : Type.

(** Modelled from the spec: the interface [Sampler] (library code), a
    decision from the parent span context (if any) and the trace id of
    the span about to start. *)
Record Sampler := mkSampler {
  shouldSample : S -> option SpanContext -> N -> SamplingDecision * S
}.

Definition AlwaysOnSampler : Sampler :=
  mkSampler (fun st _ _ => (RECORD_AND_SAMPLED, st)).

Definition AlwaysOffSampler : Sampler :=
  mkSampler (fun st _ _ => (NOT_RECORD, st)).

Definition isSpanContextValid (sc : SpanContext) : bool :=
  isValidTraceId (traceId sc) && isValidSpanId (spanId sc).

(** Modelled from the spec: [ParentBasedSampler] (library code) with its
    default delegates.  Without a valid parent the root sampler decides;
    with one, the parent's sampled flag is taken over. *)
Definition ParentBasedSampler (root : Sampler) : Sampler :=
  mkSampler (fun st parent tid =>
    match parent with
    | Some p =>
        if isSpanContextValid p then
          if sampled p then shouldSample AlwaysOnSampler st parent tid
          else shouldSample AlwaysOffSampler st parent tid
        else shouldSample root st parent tid
    | None => shouldSample root st parent tid
    end).

(** Modelled from the spec: [OurSampler] of [./ourSampler], which is not
    under [src/].  The root policy is pluggable, any function of the
    trace id; the decision is keyed on the trace id alone and evaluating
    it changes nothing. *)
Definition OurSampler (policy : N -> SamplingDecision) : Sampler :=
  mkSampler (fun st _ tid => (policy tid, st)).

(** The sampler a constructor expression of a bootstrap builds, given
    the object [our] that [new OurSampler()] gives. *)
Fixpoint build (our : Sampler) (spec : SamplerSpec) : Sampler :=
  match spec with
  | AlwaysOn => AlwaysOnSampler
  | AlwaysOff => AlwaysOffSampler
  | Our => our
  | ParentBased root => ParentBasedSampler (build our root)
  end.

Definition decision_of_flag (b : bool) : SamplingDecision :=
  if b then RECORD_AND_SAMPLED else NOT_RECORD.

End Samplers.

Arguments shouldSample {S} _ _ _ _.
Arguments ParentBasedSampler {S} _.
Arguments OurSampler {S} _.
Arguments build {S} _ _.

End Sampling.

(* ===================================================================== *)
(** ** Values, effects and the world the program runs in *)
(* ===================================================================== *)

Module Js.

(** Anything can be thrown; [instanceof Error] tells error objects from
    the rest. *)
Inductive Thrown :=
| ErrorObject (name message : string)
| OtherValue (shown : string).

Definition instanceof_Error (e : Thrown) : bool :=
  match e with ErrorObject _ _ => true | OtherValue _ => false end.

Definition message (e : Thrown) : string :=
  match e with ErrorObject _ m => m | OtherValue _ => EmptyString end.

#[warnings="-register-all"] Inductive Json :=
| JNull
| JBool (b : bool)
| JNum (z : Z)
| JStr (s : string)
| JArr (items : list Json)
| JObj (fields : list (string * Json)).

(** How a call ends. *)
Inductive Outcome (A : Type) :=
| Returned (a : A)
| Raised (e : Thrown).
Arguments Returned {A} _.
Arguments Raised {A} _.

(** JavaScript truthiness of an optional string (a query parameter). *)
Definition truthy (v : option string) : bool :=
  match v with
  | Some s => negb (String.eqb s EmptyString)
  | None => false
  end.

End Js.

Module Otel.
Import Js.
Local Open Scope Z_scope.

(** A label value of a measurement or a span attribute; JavaScript
    [undefined] is a value of its own. *)
Inductive LabelValue :=
| LUndefined
| LString (s : string)
| LNumber (z : Z).

Definition opt_string (o : option string) : LabelValue :=
  match o with Some s => LString s | None => LUndefined end.
Definition opt_number (o : option Z) : LabelValue :=
  match o with Some z => LNumber z | None => LUndefined end.

Inductive InstrumentKind := Histogram | Counter.

Record Instrument := mkInstrument {
  kind : InstrumentKind;
  name : string;
  description : string
}.

Record Resource := mkResource { attributes : list (string * string) }.

Inductive MetricReader :=
| PeriodicExportingMetricReader
    (exporter_url : string) (exportIntervalMillis exportTimeoutMillis : Z)
| PrometheusExporter (port : Z) (banner : string).

Record MeterProvider := mkMeterProvider {
  mp_resource : Resource;
  readers : list MetricReader
}.

Definition addMetricReader (r : MetricReader) (mp : MeterProvider)
  : MeterProvider :=
  mkMeterProvider (mp_resource mp) (readers mp ++ [r]).

Record Meter := mkMeter { meter_name : string; provider : MeterProvider }.

Definition getMeter (mp : MeterProvider) (n : string) : Meter := mkMeter n mp.
Definition createHistogram (m : Meter) (n d : string) : Instrument :=
  mkInstrument Histogram n d.
Definition createCounter (m : Meter) (n d : string) : Instrument :=
  mkInstrument Counter n d.

Record Instrumentation := mkInstrumentation {
  package : string;
  enabled : option bool;           (* [None]: left to the default *)
  clientRequestHeaders : list string;
  serverRequestHeaders : list string
}.

Record NodeSDK := mkNodeSDK {
  resource : Resource;
  instrumentations : list Instrumentation;
  traceExporter : string;          (* url of the OTLP trace exporter *)
  spanProcessors : list string;    (* batch processors, by exporter url *)
  autoDetectResources : bool;
  sampler : Sampling.SamplerSpec;
  textMapPropagator : Carrier.TextMapPropagator
}.

Inductive SpanStatusCode := UNSET | OK | ERROR.

Inductive SpanOp :=
| SetAttribute (key : string) (v : LabelValue)
| RecordException (e : Thrown)
| SetStatus (code : SpanStatusCode) (msg : string)
| End.

Inductive ProcessAction :=
| DoConsoleLog (line : string)
| DoPyroscopeStop
| DoExit (code : Z).

(** Everything the program does to the outside, in program order. *)
Inductive Effect :=
| ConsoleLog (line : string)
| ConsoleError (line : string) (detail : option Thrown)
| ConsoleErrorSpan (line : string) (spanId : option N)
| PyroscopeInit (appName serverAddress : string)
| PyroscopeStart
| SetGlobalMeterProvider (mp : MeterProvider)
| SdkStart (sdk : NodeSDK)
| ProcessOn (signal : string) (handler : list ProcessAction)
| Measure (i : Instrument) (amount : Z) (labels : list (string * LabelValue))
| SpanStart (id : nat) (tracer span_name : string)
| SpanEvent (id : nat) (op : SpanOp)
| HttpOut (method url : string) (headers : gmap string string)
| RedisKeys (pattern : string)
| RedisGet (key : string)
| Sleep (ms : Z).

Record World := mkWorld {
  now : Z;                                       (* Date.now() *)
  next_span : nat;                               (* next span handle *)
  propagator : option Carrier.TextMapPropagator; (* registered globally *)
  trace : list Effect
}.

Definition emit (e : Effect) (w : World) : World :=
  mkWorld (now w) (next_span w) (propagator w) (trace w ++ [e]).

Definition advance (ms : Z) (w : World) : World :=
  mkWorld (now w + ms) (next_span w) (propagator w) (trace w).

(** Computations: they read and change the world and either return or
    throw. *)
Definition M (A : Type) : Type := World -> Outcome A * World.

Definition ret {A} (a : A) : M A := fun w => (Returned a, w).

Definition bind {A B} (m : M A) (k : A -> M B) : M B :=
  fun w =>
    match m w with
    | (Returned a, w') => k a w'
    | (Raised e, w') => (Raised e, w')
    end.

Definition throw {A} (e : Thrown) : M A := fun w => (Raised e, w).

(** [try { m } catch (e) { h e }] *)
Definition try_catch {A} (m : M A) (h : Thrown -> M A) : M A :=
  fun w =>
    match m w with
    | (Returned a, w') => (Returned a, w')
    | (Raised e, w') => h e w'
    end.

(** [try { m } finally { f }]: [f] runs on every exit of [m]. *)
Definition finally {A} (m : M A) (f : M unit) : M A :=
  fun w =>
    let '(r, w') := m w in
    match f w' with
    | (Returned _, w'') => (r, w'')
    | (Raised e, w'') => (Raised e, w'')
    end.

Definition effect (e : Effect) : M unit := fun w => (Returned tt, emit e w).

Definition Date_now : M Z := fun w => (Returned (now w), w).

Definition elapse (ms : Z) : M unit := fun w => (Returned tt, advance ms w).

(** A synchronous call into a library, with the outcome it has. *)
Definition lift {A} (r : Outcome A) : M A := fun w => (r, w).

(** Awaiting an outside call: time passes, then the call's outcome. *)
Definition await {A} (ms : Z) (r : Outcome A) : M A :=
  fun w => (r, advance ms w).

Declare Scope js_scope.
Delimit Scope js_scope with js.
Notation "x <- m ;; k" := (bind m (fun x => k))
  (at level 90, m at level 80, right associativity) : js_scope.
Notation "m ;;; k" := (bind m (fun _ => k))
  (at level 90, right associativity) : js_scope.

(** Span API: a started span is a handle; operations on it are recorded. *)
Definition startSpan (tracer span_name : string) : M nat :=
  fun w =>
    let id := next_span w in
    (Returned id,
     emit (SpanStart id tracer span_name)
       (mkWorld (now w) (S id) (propagator w) (trace w))).

Definition span_op (id : nat) (op : SpanOp) : M unit :=
  effect (SpanEvent id op).

(** [opentelemetry.propagation.inject]: the globally registered
    propagator, or nothing when none is registered. *)
Definition propagation_inject (ctx : Carrier.Context)
    (headers : gmap string string) : M (gmap string string) :=
  fun w =>
    (Returned match propagator w with
              | Some p => Carrier.inject p ctx headers
              | None => headers
              end, w).

(** [sdk.start()]: on success the SDK runs and its propagator is the
    global one; the outcome itself is decided outside this program. *)
Definition sdk_start (result : Outcome unit) (sdk : NodeSDK) : M unit :=
  fun w =>
    match result with
    | Returned _ =>
        (Returned tt,
         emit (SdkStart sdk)
           (mkWorld (now w) (next_span w) (Some (textMapPropagator sdk))
              (trace w)))
    | Raised e => (Raised e, w)
    end.

Definition record (i : Instrument) (v : Z) (labels : list (string * LabelValue))
  : M unit := effect (Measure i v labels).

Definition add (i : Instrument) (v : Z) (labels : list (string * LabelValue))
  : M unit := effect (Measure i v labels).

(** What [start] returns. *)
Record Telemetry := mkTelemetry {
  meter : Meter;
  trackHttpRequest : Z -> option string -> option Z -> option string -> M unit;
  trackRedisCall : Z -> string -> M unit;
  trackError : option string -> option string -> M unit;
  trackSpanDuration : string -> Z -> M unit;
  trackSpanError : string -> Thrown -> M unit
}.

End Otel.

(* ===================================================================== *)
(** ** Telemetry bootstrap: [start] of [tracer.ts] *)
(* ===================================================================== *)

Module Tracer.
Import Js Otel.
Local Open Scope Z_scope.
Local Open Scope string_scope.
Local Open Scope js_scope.

Definition SERVICE_NAME : string := "service.name".

Definition start (sdk_start_result : Outcome unit) (serviceName : string)
  : M Telemetry :=
  let resource := mkResource
    [(SERVICE_NAME, serviceName); ("team.owner", "Ashish"); ("deployment", "4")] in
  effect (PyroscopeInit "todo-app" "http://pyroscope:4040") ;;;
  effect PyroscopeStart ;;;
  let prometheusExporter :=
    PrometheusExporter 9494
      "Prometheus scrape endpoint: http://localhost:9494/metrics" in
  let metricExporter := "http://collector:4318/v1/metrics" in
  let metricReader := PeriodicExportingMetricReader metricExporter 60000 30000 in
  let meterProvider :=
    addMetricReader prometheusExporter
      (addMetricReader metricReader (mkMeterProvider resource [])) in
  effect (SetGlobalMeterProvider meterProvider) ;;;
  let meter := getMeter meterProvider serviceName in
  let httpCalls := createHistogram meter "http_calls" "Tracks HTTP request duration" in
  let redisCalls := createHistogram meter "redis_calls" "Tracks Redis call duration" in
  let errorCount := createCounter meter "error_count" "Counts application errors" in
  let spanDuration :=
    createHistogram meter "span_duration_seconds" "Tracks span duration in seconds" in
  let spanErrorCount :=
    createCounter meter "span_error_count" "Counts the number of errors in spans" in
  let trackHttpRequest duration route status method :=
    record httpCalls duration
      [("route", opt_string route); ("status", opt_number status);
       ("method", opt_string method)] in
  let trackRedisCall duration operation :=
    record redisCalls duration [("operation", LString operation)] in
  let trackError method route :=
    add errorCount 1 [("method", opt_string method); ("route", opt_string route)] in
  let trackSpanDuration spanName duration :=
    record spanDuration duration [("span_name", LString spanName)] in
  let trackSpanError spanName error :=
    add spanErrorCount 1
      [("span_name", LString spanName); ("error_message", LString (message error))] in
  let traceExporter := "http://collector:4318/v1/traces" in
  let spanProcessor := traceExporter in
  let sdk := {|
    resource := resource;
    instrumentations :=
      [ mkInstrumentation "@opentelemetry/instrumentation-fs" (Some true) [] [];
        mkInstrumentation "@opentelemetry/instrumentation-http" None
          ["tracestate"; "traceparent"; "baggage"]
          ["tracestate"; "traceparent"; "baggage"];
        mkInstrumentation "@opentelemetry/instrumentation-express" (Some true) [] [] ];
    traceExporter := traceExporter;
    spanProcessors := [spanProcessor];
    autoDetectResources := true;
    sampler := Sampling.ParentBased Sampling.Our;
    textMapPropagator :=
      Carrier.CompositePropagator
        [Carrier.W3CTraceContextPropagator; Carrier.W3CBaggagePropagator]
  |} in
  try_catch
    (sdk_start sdk_start_result sdk ;;;
     effect (ConsoleLog "OpenTelemetry SDK started successfully"))
    (fun error =>
     effect (ConsoleError "Error starting OpenTelemetry SDK:" (Some error))) ;;;
  effect (ProcessOn "SIGINT"
            [DoConsoleLog "Shutting down Pyroscope..."; DoPyroscopeStop; DoExit 0]) ;;;
  ret (mkTelemetry meter trackHttpRequest trackRedisCall trackError
         trackSpanDuration trackSpanError).

End Tracer.

(* ===================================================================== *)
(** ** Telemetry bootstrap: [start] of the sibling variant *)
(* ===================================================================== *)

Module TracerVariant.
Import Js Otel.
Local Open Scope Z_scope.
Local Open Scope string_scope.
Local Open Scope js_scope.

Definition SERVICE_NAME : string := "service.name".

Definition start (sdk_start_result : Outcome unit) (serviceName : string)
  : M Telemetry :=
  let resource := mkResource
    [(SERVICE_NAME, serviceName); ("team.owner", "Ashish"); ("deployment", "4")] in
  let prometheusExporter :=
    PrometheusExporter 9494
      "Prometheus scrape endpoint: http://localhost:9494/metrics" in
  let metricExporter := "http://collector:4318/v1/metrics" in
  let metricReader := PeriodicExportingMetricReader metricExporter 60000 30000 in
  let meterProvider :=
    addMetricReader prometheusExporter
      (addMetricReader metricReader (mkMeterProvider resource [])) in
  effect (SetGlobalMeterProvider meterProvider) ;;;
  let meter := getMeter meterProvider serviceName in
  let httpCalls := createHistogram meter "http_calls" "Tracks HTTP request duration" in
  let redisCalls := createHistogram meter "redis_calls" "Tracks Redis call duration" in
  let errorCount := createCounter meter "error_count" "Counts application errors" in
  let spanDuration :=
    createHistogram meter "span_duration_seconds" "Tracks span duration in seconds" in
  let spanErrorCount :=
    createCounter meter "span_error_count" "Counts the number of errors in spans" in
  let trackHttpRequest duration route status method :=
    record httpCalls duration
      [("route", opt_string route); ("status", opt_number status);
       ("method", opt_string method)] in
  let trackRedisCall duration operation :=
    record redisCalls duration [("operation", LString operation)] in
  let trackError method route :=
    add errorCount 1 [("method", opt_string method); ("route", opt_string route)] in
  let trackSpanDuration spanName duration :=
    record spanDuration duration [("span_name", LString spanName)] in
  let trackSpanError spanName error :=
    add spanErrorCount 1
      [("span_name", LString spanName); ("error_message", LString (message error))] in
  let traceExporter := "http://jaeger:4318/v1/traces" in
  let spanProcessor := traceExporter in
  let sdk := {|
    resource := resource;
    instrumentations :=
      [ mkInstrumentation "@opentelemetry/instrumentation-fs" (Some true) [] [];
        mkInstrumentation "@opentelemetry/instrumentation-http" None
          ["tracestate"; "traceparent"; "baggage"]
          ["tracestate"; "traceparent"; "baggage"];
        mkInstrumentation "@opentelemetry/instrumentation-express" (Some true) [] [] ];
    traceExporter := traceExporter;
    spanProcessors := [spanProcessor];
    autoDetectResources := true;
    sampler := Sampling.ParentBased Sampling.Our;
    textMapPropagator :=
      Carrier.CompositePropagator
        [Carrier.W3CTraceContextPropagator; Carrier.W3CBaggagePropagator]
  |} in
  try_catch
    (sdk_start sdk_start_result sdk ;;;
     effect (ConsoleLog "OpenTelemetry SDK started successfully"))
    (fun error =>
     effect (ConsoleError "Error starting OpenTelemetry SDK:" (Some error))) ;;;
  ret (mkTelemetry meter trackHttpRequest trackRedisCall trackError
         trackSpanDuration trackSpanError).

End TracerVariant.

(* ===================================================================== *)
(** ** The Express application of [todo-service.ts] *)
(* ===================================================================== *)

Module Service.
Import Js Otel.
Local Open Scope Z_scope.
Local Open Scope string_scope.
Local Open Scope js_scope.

Record AxiosResponse := mkAxiosResponse { status : Z; data : Json }.

(** The collaborators of the service: the auth endpoint behind [axios],
    the Redis store, the JSON parser, and how long the calls take. *)
Record Env := mkEnv {
  axios : string -> string -> gmap string string -> Outcome AxiosResponse;
  axios_ms : Z;
  redis_keys : string -> Outcome (list string);
  redis_get : string -> Outcome (option string);
  redis_ms : Z;
  JSON_parse : string -> Outcome Json
}.

(** The active context: the span the HTTP instrumentation made current
    for the request (if any), and the baggage. *)
Record Active := mkActive {
  activeSpan : option (nat * Carrier.SpanContext);
  activeBaggage : list (string * Carrier.BaggageEntry)
}.

Definition carrier_context (a : Active) : Carrier.Context :=
  Carrier.mkContext (option_map snd (activeSpan a)) (activeBaggage a).

Definition setBaggage (a : Active) (b : list (string * Carrier.BaggageEntry))
  : Active := mkActive (activeSpan a) b.

(** [trackInternalApiCall(url, method, baggage)] *)
Definition trackInternalApiCall (env : Env) (active : Active)
    (url method : string) (baggage : list (string * Carrier.BaggageEntry))
  : M AxiosResponse :=
  span <- startSpan "internal-api-calls" ("Internal API Call: " ++ url) ;;
  finally
    (try_catch
       (headers <- propagation_inject (carrier_context active) ∅ ;;
        effect (HttpOut method url headers) ;;;
        response <- await (axios_ms env) (axios env method url headers) ;;
        span_op span (SetAttribute "http.status_code" (LNumber (status response))) ;;;
        span_op span (SetAttribute "http.method" (LString method)) ;;;
        span_op span (SetAttribute "http.url" (LString url)) ;;;
        ret response)
       (fun error =>
          (if instanceof_Error error then
             span_op span (RecordException error) ;;;
             span_op span (SetStatus ERROR (message error))
           else ret tt) ;;;
          throw error))
    (span_op span End).

(** *** Requests, responses and the layer stack *)

Record Request := mkRequest {
  method : string;
  path : string;
  query : gmap string string;
  route : option string           (* [req.route?.path] *)
}.

Inductive Body :=
| TextBody (s : string)
| JsonBody (j : Json).

(** [body = None]: nothing has been sent yet.  Otherwise [body] is the
    payload the application handed to [res.send], [res.json] or
    [res.sendStatus]; Express leaves it off the wire when the request is
    a HEAD, so what is said of the body a client receives is said for
    the other methods. *)
Record Response := mkResponse {
  statusCode : Z;
  body : option Body
}.

Definition STATUS_MESSAGE (code : Z) : string :=
  match code with
  | 200 => "OK"
  | 404 => "Not Found"
  | 500 => "Internal Server Error"
  | _ => NilEmpty.string_of_int (Z.to_int code)
  end.

(** [res.sendStatus(code)]: Express sets the status and sends the status
    message as a text body. *)
Definition res_sendStatus (code : Z) (r : Response) : Response :=
  mkResponse code (Some (TextBody (STATUS_MESSAGE code))).

Definition res_status (code : Z) (r : Response) : Response :=
  mkResponse code (body r).

Definition res_json (j : Json) (r : Response) : Response :=
  mkResponse (statusCode r) (Some (JsonBody j)).

(** A request in flight, with the listeners of the response's [finish]
    event. *)
Record Exchange := mkExchange {
  req : Request;
  res : Response;
  on_finish : list (Request -> Response -> M unit)
}.

Definition with_res (x : Exchange) (r : Response) : Exchange :=
  mkExchange (req x) r (on_finish x).

Definition with_route (x : Exchange) (p : string) : Exchange :=
  mkExchange (mkRequest (method (req x)) (path (req x)) (query (req x)) (Some p))
    (res x) (on_finish x).

Definition res_on_finish (x : Exchange) (f : Request -> Response -> M unit)
  : Exchange :=
  mkExchange (req x) (res x) (on_finish x ++ [f])%list.

(** What a layer did with the request: passed it on, passed an error on,
    or kept it (it answers). *)
Inductive Next :=
| next
| next_err (e : Thrown)
| handled.

Inductive Layer :=
| use (f : Exchange -> M (Next * Exchange))
| use_error (f : Thrown -> Exchange -> M (Next * Exchange))
| get (p : string) (f : Exchange -> M (Next * Exchange)).

(** [app.use((req, res, next) => ...)], lines 16-22. *)
Definition track_http_requests (tel : Telemetry) (x : Exchange)
  : M (Next * Exchange) :=
  startTime <- Date_now ;;
  ret (next,
       res_on_finish x (fun rq rs =>
         t <- Date_now ;;
         trackHttpRequest tel (t - startTime) (route rq)
           (Some (statusCode rs)) (Some (method rq)))).

(** [app.use((err, req, res, next) => ...)], lines 25-30.  Express calls
    an error layer only with an error, so the test [if (err)] holds. *)
Definition track_errors (tel : Telemetry) (err : Thrown) (x : Exchange)
  : M (Next * Exchange) :=
  trackError tel (Some (method (req x))) (route (req x)) ;;;
  ret (next_err err, x).

(** The loop over [todoKeys], lines 87-93. *)
Fixpoint read_todos (tel : Telemetry) (env : Env) (keys : list string)
    (todos : list Json) : M (list Json) :=
  match keys with
  | [] => ret todos
  | key :: rest =>
      startItemTime <- Date_now ;;
      effect (RedisGet key) ;;;
      todoItem <- await (redis_ms env) (redis_get env key) ;;
      t <- Date_now ;;
      trackRedisCall tel (t - startItemTime) "get" ;;;
      todos' <- (if truthy todoItem then
                   match todoItem with
                   | Some s => j <- lift (JSON_parse env s) ;; ret (todos ++ [j])%list
                   | None => ret todos
                   end
                 else ret todos) ;;
      read_todos tel env rest todos'
  end.

(** [app.get('/todos', ...)], lines 70-120. *)
Definition get_todos (tel : Telemetry) (env : Env) (active : Active)
    (x : Exchange) : M (Next * Exchange) :=
  let baggage := [("user.plan", Carrier.mkEntry "enterprise" None)] in
  let contextWithBaggage := setBaggage active baggage in
  res' <-
    try_catch
      (userResponse <-
         trackInternalApiCall env contextWithBaggage
           "http://auth:8080/auth" "GET" baggage ;;
       startRedisTime <- Date_now ;;
       effect (RedisKeys "todo:*") ;;;
       todoKeys <- await (redis_ms env) (redis_keys env "todo:*") ;;
       t <- Date_now ;;
       trackRedisCall tel (t - startRedisTime) "keys" ;;;
       todos <- read_todos tel env todoKeys [] ;;
       (if truthy (query (req x) !! "slow")
        then effect (Sleep 5000) ;;; elapse 5000
        else ret tt) ;;;
       early <-
         (if truthy (query (req x) !! "fail") then
            try_catch
              (throw (ErrorObject "Error" "Really bad error!"))
              (fun e =>
                 if instanceof_Error e then
                   let activeSpan := activeSpan contextWithBaggage in
                   match activeSpan with
                   | Some sp => span_op sp.1 (RecordException e)
                   | None => ret tt
                   end ;;;
                   effect (ConsoleErrorSpan "Error occurred:"
                             (option_map (fun sp => Carrier.spanId sp.2) activeSpan)) ;;;
                   ret (Some (res_sendStatus 500 (res x)))
                 else ret None)
          else ret None) ;;
       match early with
       | Some r => ret r
       | None =>
           ret (res_json
                  (JObj [("todos", JArr todos); ("user", data userResponse)])
                  (res x))
       end)
      (fun error =>
         ret (res_json (JObj [("error", JStr "Internal Server Error")])
                (res_status 500 (res x)))) ;;
  ret (handled, with_res x res').

(** Express's last resort when no layer answers: 404 without an error,
    500 with one. *)
Definition finalhandler (err : option Thrown) (x : Exchange) : M Exchange :=
  match err with
  | None =>
      ret (with_res x
             (mkResponse 404
                (Some (TextBody ("Cannot " ++ method (req x) ++ " " ++ path (req x))))))
  | Some _ =>
      ret (with_res x (mkResponse 500 (Some (TextBody (STATUS_MESSAGE 500)))))
  end.

(** ASCII lower case: all that [toLowerCase] and the [i] flag of a
    regular expression do to a method name or to a literal path. *)
Definition lower (c : ascii) : ascii :=
  let n := N_of_ascii c in
  if ((65 <=? n) && (n <=? 90))%N then ascii_of_N (n + 32) else c.

Fixpoint toLowerCase (s : string) : string :=
  match s with
  | EmptyString => EmptyString
  | String c rest => String (lower c) (toLowerCase rest)
  end.

(** [Route.prototype._handles_method] of a route registered with
    [app.get]: the method is compared in lower case, and a HEAD request
    is served by the GET handler. *)
Definition handles_method (m : string) : bool :=
  let name := toLowerCase m in
  String.eqb name "get" || String.eqb name "head".

(** The layer of a route with the literal path [p] tests the pathname of
    the request against [p] without regard to case and with one
    optional trailing slash: routing is neither case sensitive nor
    strict unless the application asks for it, and this one does not. *)
Definition path_matches (p s : string) : bool :=
  String.eqb (toLowerCase s) (toLowerCase p)
  || String.eqb (toLowerCase s) (toLowerCase p ++ "/").

(** [app.get(p, ...)] takes the GET and HEAD requests for [p]. *)
Definition matches (p : string) (r : Request) : bool :=
  handles_method (method r) && path_matches p (path r).

(** [route._options()] of a GET route, and Express's [appendMethods],
    which keeps one copy of each method. *)
Definition route_options : list string := ["GET"; "HEAD"].

Fixpoint appendMethods (methods addition : list string) : list string :=
  match addition with
  | [] => methods
  | m :: rest =>
      appendMethods
        (if existsb (String.eqb m) methods then methods else methods ++ [m])%list
        rest
  end.

(** An OPTIONS request that finds the path of a route but no handler for
    its method collects the methods of the route. *)
Definition collect_options (p : string) (r : Request) (options : list string)
  : list string :=
  if path_matches p (path r) && negb (handles_method (method r))
     && String.eqb (method r) "OPTIONS"
  then appendMethods options route_options
  else options.

(** [sendOptionsResponse]: the collected methods go out in the [Allow]
    header and as the payload, with the status as it stands.  (Express 4
    joins them with a comma, Express 5 with a comma and a space.) *)
Definition sendOptionsResponse (options : list string) (x : Exchange)
  : M Exchange :=
  ret (with_res x
         (mkResponse (statusCode (res x))
            (Some (TextBody (String.concat "," options))))).

(** The end of the stack: an OPTIONS request that collected methods and
    met no error is answered with them; everything else goes to the
    final handler. *)
Definition done (options : list string) (err : option Thrown) (x : Exchange)
  : M Exchange :=
  match err, options with
  | None, _ :: _ => sendOptionsResponse options x
  | _, _ => finalhandler err x
  end.

(** Express's dispatch over the stack in registration order: plain layers
    see requests without an error, error layers see those with one; a
    plain layer that throws passes its error on; a route is skipped
    while an error is pending.  A route handler here is an [async]
    function, whose rejection nobody catches. *)
Fixpoint dispatch (stack : list Layer) (options : list string)
    (err : option Thrown) (x : Exchange) : M Exchange :=
  match stack with
  | [] => done options err x
  | layer :: rest =>
      let continue (r : Next * Exchange) : M Exchange :=
        match r.1 with
        | next => dispatch rest options None r.2
        | next_err e => dispatch rest options (Some e) r.2
        | handled => ret r.2
        end in
      match layer, err with
      | use f, None =>
          r <- try_catch (f x) (fun e => ret (next_err e, x)) ;; continue r
      | use_error f, Some e =>
          r <- try_catch (f e x) (fun e' => ret (next_err e', x)) ;; continue r
      | get p f, None =>
          if matches p (req x) then r <- f (with_route x p) ;; continue r
          else dispatch rest (collect_options p (req x) options) err x
      | _, _ => dispatch rest options err x
      end
  end.

Fixpoint run_listeners (fs : list (Request -> Response -> M unit))
    (rq : Request) (rs : Response) : M unit :=
  match fs with
  | [] => ret tt
  | f :: rest => f rq rs ;;; run_listeners rest rq rs
  end.

(** The stack of the service, in the order of the [app.use]/[app.get]
    calls. *)
Definition app (tel : Telemetry) (env : Env) (active : Active) : list Layer :=
  [ use (track_http_requests tel);
    use_error (track_errors tel);
    get "/todos" (get_todos tel env active) ].

(** One inbound request from arrival to the [finish] event of its
    response. *)
Definition handle_request (tel : Telemetry) (env : Env) (active : Active)
    (request : Request) : M Exchange :=
  x <- dispatch (app tel env active) [] None
         (mkExchange request (mkResponse 200 None) []) ;;
  match body (res x) with
  | Some _ => run_listeners (on_finish x) (req x) (res x) ;;; ret x
  | None => ret x
  end.

(** The module from its first statement to the end of one request:
    line 13 runs [start], then the application serves. *)
Definition serve (sdk_start_result : Outcome unit) (env : Env)
    (active : Active) (request : Request) : M Exchange :=
  tel <- Tracer.start sdk_start_result "todo-service" ;;
  handle_request tel env active request.

(** The observations one instrument received, oldest first. *)
Definition observations (instrument : string) (t : list Effect)
  : list (Z * list (string * LabelValue)) :=
  omap (fun e =>
          match e with
          | Measure i v l =>
              if String.eqb (name i) instrument then Some (v, l) else None
          | _ => None
          end) t.

(** The operations recorded on one span, oldest first. *)
Definition span_ops (id : nat) (t : list Effect) : list SpanOp :=
  omap (fun e =>
          match e with
          | SpanEvent i op => if Nat.eqb i id then Some op else None
          | _ => None
          end) t.

Definition is_End (op : SpanOp) : bool :=
  match op with End => true | _ => false end.

Definition is_RecordException (op : SpanOp) : bool :=
  match op with RecordException _ => true | _ => false end.

Definition is_redis (e : Effect) : bool :=
  match e with RedisKeys _ | RedisGet _ => true | _ => false end.

End Service.

(* ===================================================================== *)
(** ** Vocabulary of the properties *)
(* ===================================================================== *)

Module Props.
Import Wire Carrier Sampling Js Otel Service.
Local Open Scope Z_scope.
Local Open Scope string_scope.
Local Open Scope list_scope.

(** *** Checks on single characters *)

(** A character that reads as a hex digit is the digit of its value. *)
Definition hex_value_sound_b (c : ascii) : bool :=
  match hex_value c with
  | Some d => (d <? 16)%N && Ascii.eqb c (hex_digit d)
  | None => true
  end.

(** The separators of the baggage header. *)
Definition separator (x : ascii) : bool :=
  Ascii.eqb x ","%char || Ascii.eqb x ";"%char || Ascii.eqb x "="%char.

(** What decoding needs of the encoding of one character: a kept character
    is not a percent sign; an escaped one is a percent sign and two digits
    that give the character back; none of them is a separator. *)
Definition pct_char_ok (c : ascii) : bool :=
  forallb (fun x => negb (separator x)) (pct_encode_char c)
  && match pct_encode_char c with
     | [x] => negb (Ascii.eqb x "%"%char) && Ascii.eqb x c
     | [p; a; b] =>
         Ascii.eqb p "%"%char
         && match hex_value_any a, hex_value_any b with
            | Some x, Some y => Ascii.eqb (ascii_of_N (16 * x + y)) c
            | _, _ => false
            end
     | _ => false
     end.

(** *** Sampling *)

(** A span is a root when its context carries no valid parent. *)
Definition is_root (parent : option SpanContext) : bool :=
  match parent with
  | Some p => negb (isSpanContextValid p)
  | None => true
  end.

(** A sampler keyed on the trace id: its decision is [policy] of the
    trace id, whatever the parent and the state, and the state is left
    as it was. *)
Definition keyed_on_trace_id {S : Type} (our : Sampler S)
    (policy : N -> SamplingDecision) : Prop :=
  forall st parent tid, shouldSample our st parent tid = (policy tid, st).

(** *** Bootstrap *)

(** What the tracking functions of a handle do: each appends one
    measurement to its instrument, with the label set of the source. *)
Definition tracks (tel : Telemetry) : Prop :=
  (forall d route status method,
     trackHttpRequest tel d route status method
     = effect (Measure (mkInstrument Histogram "http_calls"
                          "Tracks HTTP request duration") d
                 [("route", opt_string route); ("status", opt_number status);
                  ("method", opt_string method)]))
  /\ (forall d operation,
        trackRedisCall tel d operation
        = effect (Measure (mkInstrument Histogram "redis_calls"
                             "Tracks Redis call duration") d
                    [("operation", LString operation)]))
  /\ (forall method route,
        trackError tel method route
        = effect (Measure (mkInstrument Counter "error_count"
                             "Counts application errors") 1
                    [("method", opt_string method); ("route", opt_string route)]))
  /\ (forall spanName d,
        trackSpanDuration tel spanName d
        = effect (Measure (mkInstrument Histogram "span_duration_seconds"
                             "Tracks span duration in seconds") d
                    [("span_name", LString spanName)]))
  /\ (forall spanName error,
        trackSpanError tel spanName error
        = effect (Measure (mkInstrument Counter "span_error_count"
                             "Counts the number of errors in spans") 1
                    [("span_name", LString spanName);
                     ("error_message", LString (message error))])).

(** The effects a run appended to the trace it started from. *)
Definition appended (w w' : World) : list Effect :=
  drop (length (trace w)) (trace w').

(** The samplers of the SDKs started in a stretch of the trace. *)
Definition sdk_samplers (t : list Effect) : list SamplerSpec :=
  omap (fun e => match e with
                 | SdkStart sdk => Some (sampler sdk)
                 | _ => None
                 end) t.

(** The samplers the two bootstraps hand to the SDK they start. *)
Definition configured_samplers (r : Outcome unit) (serviceName : string)
    (w : World) : list SamplerSpec :=
  (sdk_samplers (appended w (Tracer.start r serviceName w).2)
   ++ sdk_samplers (appended w (TracerVariant.start r serviceName w).2))%list.

(** Effects of the profiler and of its shutdown hook. *)
Definition is_profiling (e : Effect) : bool :=
  match e with
  | PyroscopeInit _ _ | PyroscopeStart | ProcessOn _ _ => true
  | _ => false
  end.

(** The trace-export destination as a configuration input: the same SDK
    pointed at [url]. *)
Definition with_trace_endpoint (url : string) (sdk : NodeSDK) : NodeSDK :=
  mkNodeSDK (resource sdk) (instrumentations sdk) url [url]
    (autoDetectResources sdk) (sampler sdk) (textMapPropagator sdk).

Definition retarget (url : string) (e : Effect) : Effect :=
  match e with
  | SdkStart sdk => SdkStart (with_trace_endpoint url sdk)
  | _ => e
  end.

Definition trace_endpoints (t : list Effect) : list string :=
  omap (fun e => match e with
                 | SdkStart sdk => Some (traceExporter sdk)
                 | _ => None
                 end) t.

(** The two bootstraps do the same up to the trace endpoint. *)
Definition same_but_endpoint (r : Outcome unit) (serviceName : string)
    (w : World) : Prop :=
  let a := Tracer.start r serviceName w in
  let b := TracerVariant.start r serviceName w in
  a.1 = b.1
  /\ propagator a.2 = propagator b.2
  /\ forall url,
       map (retarget url) (appended w a.2) = map (retarget url) (appended w b.2).

(** *** The outbound call *)

(** The headers [trackInternalApiCall] sends in world [w]. *)
Definition sent_headers (active : Active) (w : World) : gmap string string :=
  match propagator w with
  | Some p => Carrier.inject p (carrier_context active) ∅
  | None => ∅
  end.

(** The span operations of [trackInternalApiCall] before [end], by outcome
    of the call. *)
Definition call_ops (url method : string) (r : Outcome AxiosResponse)
  : list SpanOp :=
  match r with
  | Returned response =>
      [SetAttribute "http.status_code" (LNumber (status response));
       SetAttribute "http.method" (LString method);
       SetAttribute "http.url" (LString url)]
  | Raised error =>
      if instanceof_Error error
      then [RecordException error; SetStatus ERROR (message error)]
      else []
  end.

(** The wrapper is observational, in the strong sense: the business
    result is the one of the wrapped call, whatever is re-raised has been
    recorded on the span, and the span is ended exactly once. *)
Definition observational_wrapper (env : Env) (active : Active)
    (url method : string) (baggage : list (string * BaggageEntry))
    (w : World) : Prop :=
  let run := trackInternalApiCall env active url method baggage w in
  let ops := span_ops (next_span w) (appended w run.2) in
  run.1 = axios env method url (sent_headers active w)
  /\ (forall e, run.1 = Raised e -> In (RecordException e) ops)
  /\ length (List.filter is_End ops) = 1%nat.

(** *** The route handler *)

(** Of the measurements, only those of [redis_calls]. *)
Definition store_measure_only (e : Effect) : Prop :=
  match e with
  | Measure i _ _ => name i = "redis_calls"
  | _ => True
  end.

(** Nothing that touches the store. *)
Definition no_store (e : Effect) : Prop := is_redis e = false.

(** The loop only reads items and measures the reads. *)
Definition read_effect (e : Effect) : Prop :=
  match e with
  | RedisGet _ => True
  | Measure i _ _ => name i = "redis_calls"
  | _ => False
  end.

(** Every exception recorded on a span, with the span it went to. *)
Definition recorded_exceptions (t : list Effect) : list (nat * Thrown) :=
  omap (fun e => match e with
                 | SpanEvent id (RecordException x) => Some (id, x)
                 | _ => None
                 end) t.

Definition AUTH_URL : string := "http://auth:8080/auth".
Definition USER_PLAN : list (string * BaggageEntry) :=
  [("user.plan", mkEntry "enterprise" None)].

(** The outcome of the auth call the handler makes in world [w]. *)
Definition auth_outcome (env : Env) (active : Active) (w : World)
  : Outcome AxiosResponse :=
  axios env "GET" AUTH_URL (sent_headers (setBaggage active USER_PLAN) w).

Definition ERROR_JSON : Json := JObj [("error", JStr "Internal Server Error")].

Definition error_response (r : Response) : Response :=
  res_json ERROR_JSON (res_status 500 r).

(** The exchange the route handler receives for [request] arriving in
    world [w]: the tracking layer has put its listener on the response. *)
Definition arriving (tel : Telemetry) (request : Request) (w : World)
  : Exchange :=
  with_route
    (res_on_finish (mkExchange request (mkResponse 200 None) [])
       (fun rq rs =>
          bind Date_now (fun t =>
            trackHttpRequest tel (t - now w) (route rq)
              (Some (statusCode rs)) (Some (method rq)))))
    "/todos".

(** An OPTIONS request for the path of the route [p]: no handler takes
    it, and Express answers it itself with the methods of the route. *)
Definition allows (p : string) (r : Request) : bool :=
  String.eqb (method r) "OPTIONS" && path_matches p (path r).

Definition http_calls_observation (d : Z) (x : Exchange) : Effect :=
  Measure (mkInstrument Histogram "http_calls" "Tracks HTTP request duration") d
    [("route", opt_string (route (req x)));
     ("status", LNumber (statusCode (res x)));
     ("method", LString (method (req x)))].

Definition response_of (o : Outcome Exchange) : option Response :=
  match o with Returned x => Some (res x) | Raised _ => None end.

(** A request with the fail flag answers 500 with an empty body and
    records exactly one exception on the active span. *)
Definition fail_request_claim (r0 : Outcome unit) (env : Env) (active : Active)
    (request : Request) (w : World) : Prop :=
  let run := serve r0 env active request w in
  exists x,
    run.1 = Returned x
    /\ statusCode (res x) = 500
    /\ body (res x) = Some (TextBody EmptyString)
    /\ exists sp, activeSpan active = Some sp
         /\ length (List.filter is_RecordException
                      (span_ops sp.1 (appended w run.2))) = 1%nat.

(** *** Concrete collaborators for the examples *)

Definition sample_context : Context :=
  mkContext (Some (mkSpanContext 5 7 true))
    [("user.plan", mkEntry "enterprise" None)].

(** The auth endpoint answers 200; the store holds one item. *)
Definition env_ok : Env :=
  mkEnv (fun _ _ _ => Returned (mkAxiosResponse 200 (JStr "alice"))) 7
        (fun _ => Returned ["todo:1"]) (fun _ => Returned (Some "{}")) 3
        (fun _ => Returned (JObj [])).

(** The auth call throws [v]. *)
Definition env_throwing (v : Thrown) : Env :=
  mkEnv (fun _ _ _ => Raised v) 7 (fun _ => Returned []) (fun _ => Returned None) 3
        (fun _ => Returned JNull).

Definition CONNECTION_REFUSED : Thrown := ErrorObject "AxiosError" "ECONNREFUSED".

(** A process that has not run yet, and one in which the instrumentation
    has started the server span (handle 0) of a request. *)
Definition initial_world : World := mkWorld 0 0 None [].
Definition fresh_world : World := mkWorld 1000 1 None [].

Definition server_span : Active :=
  mkActive (Some (0%nat, mkSpanContext 5 7 true)) [].

Definition get_todos_request (q : list (string * string)) : Request :=
  mkRequest "GET" "/todos" (list_to_map q) None.

(** [GET /todos?fail=1] *)
Definition fail_request : Request := get_todos_request [("fail", "1")].

(** Three runs of the service on [fail_request]: the auth endpoint
    refuses the connection; everything answers; everything answers but no
    span is active. *)
Definition refused_run : Outcome Exchange * World :=
  serve (Returned tt) (env_throwing CONNECTION_REFUSED) server_span
    fail_request fresh_world.

Definition served_run : Outcome Exchange * World :=
  serve (Returned tt) env_ok server_span fail_request fresh_world.

Definition unobserved_run : Outcome Exchange * World :=
  serve (Returned tt) env_ok (mkActive None []) fail_request fresh_world.

End Props.


(* ===================================================================== *)
(** ** Start-up of the service: [init] of [todo-service.ts] *)
(* ===================================================================== *)

Module Startup.
Import Js Otel Service.
Local Open Scope Z_scope.
Local Open Scope string_scope.
Local Open Scope list_scope.

(** The four default items, lines 132-135, before [JSON.stringify]. *)
Definition DEFAULT_ITEMS : list (string * Json) :=
  [ ("todo:1", JObj [("name", JStr "Install OpenTelemetry SDK")]);
    ("todo:2", JObj [("name", JStr "Deploy OpenTelemetry Collector")]);
    ("todo:3", JObj [("name", JStr "Configure sampling rule")]);
    ("todo:4", JObj [("name", JStr "OpenTelemetry master!")]) ].

(** [Promise.all] over [redis.set] calls.  Every write is issued when the
    array is built; a write that the store accepts is in the store
    afterwards, whatever the others do.  The whole resolves when all
    writes do and rejects otherwise (with the rejection of the earliest
    write in the array, a choice the properties do not depend on). *)
Fixpoint set_all (redis_set : string -> string -> Outcome unit)
    (writes : list (string * string)) (store : gmap string string)
  : Outcome unit * gmap string string :=
  match writes with
  | [] => (Returned tt, store)
  | (k, v) :: rest =>
      match redis_set k v with
      | Returned _ => set_all redis_set rest (<[k := v]> store)
      | Raised e =>
          (Raised e, (set_all redis_set rest store).2)
      end
  end.

(** [init()], lines 128-139.  [JSON.stringify], the store's answer to a
    write and the time the writes take come from outside; the store is
    threaded beside the world.  The callback of [startActiveSpan] waits
    for all writes and then ends the span; nobody awaits or catches the
    callback. *)
Definition init (stringify : Json -> string)
    (redis_set : string -> string -> Outcome unit) (set_ms : Z)
    (store : gmap string string) (w : World)
  : (Outcome unit * World) * gmap string string :=
  let writes := map (fun kv => (kv.1, stringify kv.2)) DEFAULT_ITEMS in
  let all := set_all redis_set writes store in
  ((span <- startSpan "init" "Set default items" ;;
    await set_ms all.1 ;;;
    span_op span End)%js w,
   all.2).

End Startup.

(* ===================================================================== *)
(** ** Vocabulary of the further properties *)
(* ===================================================================== *)

Module Coverage.
Import Wire Carrier Js Otel Service Props Startup.
Local Open Scope Z_scope.
Local Open Scope string_scope.
Local Open Scope list_scope.

Definition REDIS_CALLS : Instrument :=
  mkInstrument Histogram "redis_calls" "Tracks Redis call duration".

Definition BAD_ERROR : Thrown := ErrorObject "Error" "Really bad error!".

(** The store has a usable answer for a key: the read returns, and a
    non-empty item parses. *)
Definition item_ok (env : Env) (k : string) : Prop :=
  match redis_get env k with
  | Returned (Some s) =>
      truthy (Some s) = true -> exists j, JSON_parse env s = Returned j
  | Returned None => True
  | Raised _ => False
  end.

(** Reading a key fails with [e]: the read throws, or the item is there
    and does not parse. *)
Definition item_fails (env : Env) (k : string) (e : Thrown) : Prop :=
  redis_get env k = Raised e
  \/ exists s, redis_get env k = Returned (Some s)
               /\ truthy (Some s) = true /\ JSON_parse env s = Raised e.

(** The todos a listing of [keys] is expected to hold: the parsed items
    of the keys that have a non-empty value, in the order of the keys. *)
Fixpoint parsed_items (env : Env) (keys : list string) : list Json :=
  match keys with
  | [] => []
  | k :: rest =>
      match redis_get env k with
      | Returned (Some s) =>
          if truthy (Some s) then
            match JSON_parse env s with
            | Returned j => j :: parsed_items env rest
            | Raised _ => parsed_items env rest
            end
          else parsed_items env rest
      | _ => parsed_items env rest
      end
  end.

(** The effects of reading [keys] one after the other, every read
    measured with the time the store takes. *)
Definition read_trace (env : Env) (keys : list string) : list Effect :=
  flat_map (fun k => [RedisGet k;
                      Measure REDIS_CALLS (redis_ms env)
                        [("operation", LString "get")]]) keys.

(** The effects of the auth call of the handler in world [w]. *)
Definition call_trace (env : Env) (active : Active) (w : World) : list Effect :=
  SpanStart (next_span w) "internal-api-calls"
    ("Internal API Call: " ++ AUTH_URL)%string
  :: HttpOut "GET" AUTH_URL (sent_headers (setBaggage active USER_PLAN) w)
  :: map (SpanEvent (next_span w))
       (call_ops AUTH_URL "GET" (auth_outcome env active w) ++ [End]).

Definition slow (x : Exchange) : bool := truthy (query (req x) !! "slow").
Definition fail (x : Exchange) : bool := truthy (query (req x) !! "fail").

(** The effects of the simulated failure. *)
Definition fail_trace (active : Active) : list Effect :=
  match activeSpan active with
  | Some sp =>
      [SpanEvent sp.1 (RecordException BAD_ERROR);
       ConsoleErrorSpan "Error occurred:" (Some (spanId sp.2))]
  | None => [ConsoleErrorSpan "Error occurred:" None]
  end.

(** Everything the handler does when the auth call and the store
    answer. *)
Definition success_trace (env : Env) (active : Active) (x : Exchange)
    (w : World) (keys : list string) : list Effect :=
  call_trace env active w
  ++ RedisKeys "todo:*"
  :: Measure REDIS_CALLS (redis_ms env) [("operation", LString "keys")]
  :: read_trace env keys
  ++ (if slow x then [Sleep 5000] else [])
  ++ (if fail x then fail_trace active else []).

Definition success_response (env : Env) (x : Exchange)
    (response : AxiosResponse) (keys : list string) : Response :=
  if fail x then res_sendStatus 500 (res x)
  else res_json (JObj [("todos", JArr (parsed_items env keys));
                       ("user", data response)]) (res x).

(** The time the handler takes when the auth call and the store answer. *)
Definition success_elapsed (env : Env) (x : Exchange) (keys : list string) : Z :=
  axios_ms env + redis_ms env * (1 + Z.of_nat (length keys))
  + (if slow x then 5000 else 0).

(** What the handler may do after the auth call: talk to the store,
    measure that, sleep, report the simulated failure on the active
    span. *)
Definition tail_effect (active : Active) (e : Effect) : Prop :=
  match e with
  | RedisKeys _ | RedisGet _ | Sleep _ | ConsoleErrorSpan _ _ => True
  | Measure i _ _ => name i = "redis_calls"
  | SpanEvent id (RecordException x) =>
      x = BAD_ERROR /\ exists sc, activeSpan active = Some (id, sc)
  | _ => False
  end.

(** The spans started, the outbound requests made and the commands sent
    to the store in a stretch of the trace. *)
Definition started (t : list Effect) : list nat :=
  omap (fun e => match e with SpanStart id _ _ => Some id | _ => None end) t.

Definition ended (t : list Effect) : list nat :=
  omap (fun e => match e with SpanEvent id End => Some id | _ => None end) t.

Definition outbound (t : list Effect)
  : list (string * string * gmap string string) :=
  omap (fun e => match e with
                 | HttpOut m u h => Some (m, u, h)
                 | _ => None
                 end) t.

Definition store_commands (t : list Effect) : list Effect :=
  List.filter is_redis t.

Definition is_SetAttribute (op : SpanOp) : bool :=
  match op with SetAttribute _ _ => true | _ => false end.

(** Effects that depend on how [sdk.start()] ends. *)
Definition is_sdk (e : Effect) : bool :=
  match e with
  | SdkStart _ | ConsoleLog _ | ConsoleError _ _ => true
  | _ => false
  end.

Definition meter_providers (t : list Effect) : list MeterProvider :=
  omap (fun e => match e with
                 | SetGlobalMeterProvider mp => Some mp
                 | _ => None
                 end) t.

(** The meter provider both bootstraps register for a service. *)
Definition expected_provider (serviceName : string) : MeterProvider :=
  mkMeterProvider
    (mkResource [("service.name", serviceName); ("team.owner", "Ashish");
                 ("deployment", "4")])
    [PeriodicExportingMetricReader "http://collector:4318/v1/metrics" 60000 30000;
     PrometheusExporter 9494
       "Prometheus scrape endpoint: http://localhost:9494/metrics"].

(** *** Concrete collaborators for the examples *)

(** A store with two items, the second one empty. *)
Definition env_two_items : Env :=
  mkEnv (fun _ _ _ => Returned (mkAxiosResponse 200 (JStr "alice"))) 7
        (fun _ => Returned ["todo:1"; "todo:2"])
        (fun k => if String.eqb k "todo:1" then Returned (Some "{}")
                  else Returned (Some EmptyString))
        3 (fun _ => Returned (JObj [])).

(** The listing of keys throws. *)
Definition env_keys_down : Env :=
  mkEnv (fun _ _ _ => Returned (mkAxiosResponse 200 (JStr "alice"))) 7
        (fun _ => Raised CONNECTION_REFUSED) (fun _ => Returned None) 3
        (fun _ => Returned JNull).

(** The second of three reads throws. *)
Definition env_read_down : Env :=
  mkEnv (fun _ _ _ => Returned (mkAxiosResponse 200 (JStr "alice"))) 7
        (fun _ => Returned ["todo:1"; "todo:2"; "todo:3"])
        (fun k => if String.eqb k "todo:2" then Raised CONNECTION_REFUSED
                  else Returned (Some "{}"))
        3 (fun _ => Returned (JObj [])).

Definition slow_request : Request := get_todos_request [("slow", "1")].

Definition other_request : Request :=
  mkRequest "POST" "/todos" ∅ None.

Definition incoming_baggage : Active :=
  mkActive (Some (0%nat, mkSpanContext 5 7 true))
    [("tenant", mkEntry "acme" None)].

(** A store that accepts every write, and one that refuses [todo:2]. *)
Definition accept_all (k v : string) : Outcome unit := Returned tt.

Definition refuse_second (k v : string) : Outcome unit :=
  if String.eqb k "todo:2" then Raised CONNECTION_REFUSED else Returned tt.

(** A stand-in for [JSON.stringify] in the examples: the name of the item. *)
Definition name_of (j : Json) : string :=
  match j with
  | JObj [(_, JStr s)] => s
  | _ => EmptyString
  end.

(** The default item [init] writes under a key, if any. *)
Definition default_item (k : string) : option Json :=
  snd <$> List.find (fun kv => String.eqb kv.1 k) DEFAULT_ITEMS.

(** The inverse of [name_of] on the default items. *)
Definition named (s : string) : Outcome Json :=
  Returned (JObj [("name", JStr s)]).

(** The store as [init] leaves it when every write is accepted, seen
    through the reads of the handler; the listing gives two of the keys,
    the later one first. *)
Definition env_after_init : Env :=
  mkEnv (fun _ _ _ => Returned (mkAxiosResponse 200 (JStr "alice"))) 7
        (fun _ => Returned ["todo:3"; "todo:1"])
        (fun k => Returned ((init name_of accept_all 2 ∅ initial_world).2 !! k))
        3 named.

End Coverage.

(* ===================================================================== *)
(** ** Properties of the encodings *)
(* ===================================================================== *)

Import Wire Carrier Sampling Js Otel Service Props.

(** Case analysis over all 256 characters. *)
Ltac each_char c := destruct c as [[] [] [] [] [] [] [] []].

Section WireFacts.
Local Open Scope N_scope.

Lemma text_of_bytes_of s : text_of (bytes_of s) = s.
Proof. apply string_of_list_ascii_of_string. Qed.

Lemma bytes_of_text_of l : bytes_of (text_of l) = l.
Proof. apply list_ascii_of_string_of_list_ascii. Qed.

Lemma small_cases (d : N) :
  d < 16 ->
  d = 0 \/ d = 1 \/ d = 2 \/ d = 3 \/ d = 4 \/ d = 5 \/ d = 6 \/ d = 7 \/
  d = 8 \/ d = 9 \/ d = 10 \/ d = 11 \/ d = 12 \/ d = 13 \/ d = 14 \/ d = 15.
Proof. lia. Qed.

Lemma hex_value_digit d : d < 16 -> hex_value (hex_digit d) = Some d.
Proof.
  intros H. destruct (small_cases d H) as
    [->|[->|[->|[->|[->|[->|[->|[->|[->|[->|[->|[->|[->|[->|[->| ->]]]]]]]]]]]]]]];
    reflexivity.
Qed.

Lemma hex_value_sound_all c : hex_value_sound_b c = true.
Proof. each_char c; reflexivity. Qed.

Lemma hex_digit_value c d : hex_value c = Some d -> d < 16 /\ c = hex_digit d.
Proof.
  intros H. pose proof (hex_value_sound_all c) as Hb.
  unfold hex_value_sound_b in Hb. rewrite H in Hb.
  apply andb_prop in Hb as [H1 H2].
  apply N.ltb_lt in H1. apply Ascii.eqb_eq in H2. auto.
Qed.

Lemma parse_hex_acc_snoc s : forall acc c,
  parse_hex_acc acc (s ++ [c]) =
  match parse_hex_acc acc s with
  | Some a => match hex_value c with Some d => Some (16 * a + d) | None => None end
  | None => None
  end.
Proof.
  induction s as [|x s IH]; intros acc c; simpl.
  - destruct (hex_value c); reflexivity.
  - destruct (hex_value x); [apply IH | reflexivity].
Qed.

Lemma length_hex_fixed w : forall n, length (hex_fixed w n) = w.
Proof.
  induction w as [|w IH]; intros n; simpl; [reflexivity|].
  rewrite length_app, IH. simpl. lia.
Qed.

Lemma pow16_succ (w : nat) : 16 ^ N.of_nat (S w) = 16 * 16 ^ N.of_nat w.
Proof. rewrite Nat2N.inj_succ, N.pow_succ_r'. reflexivity. Qed.

(** Reading back the digits of a number that fits the width. *)
Lemma parse_hex_fixed w : forall n,
  n < 16 ^ N.of_nat w -> parse_hex (hex_fixed w n) = Some n.
Proof.
  unfold parse_hex. induction w as [|w IH]; intros n Hn.
  - simpl in *. f_equal. lia.
  - rewrite pow16_succ in Hn. simpl hex_fixed.
    rewrite parse_hex_acc_snoc, IH.
    + rewrite hex_value_digit by (apply N.mod_lt; lia).
      f_equal. symmetry. apply N.div_mod'.
    + apply N.Div0.div_lt_upper_bound. lia.
Qed.

(** Whatever reads as a number is the fixed-width rendering of it. *)
Lemma hex_fixed_parse s : forall n,
  parse_hex s = Some n ->
  n < 16 ^ N.of_nat (length s) /\ s = hex_fixed (length s) n.
Proof.
  unfold parse_hex. induction s as [|c s IH] using rev_ind; intros n H.
  - simpl in *. inversion H; subst. split; [lia | reflexivity].
  - rewrite parse_hex_acc_snoc in H.
    destruct (parse_hex_acc 0 s) as [a|] eqn:Ha; [|discriminate].
    destruct (hex_value c) as [d|] eqn:Hd; [|discriminate].
    inversion H; subst n; clear H.
    destruct (IH a eq_refl) as [Hlt Hs].
    destruct (hex_digit_value c d Hd) as [Hd16 ->].
    rewrite length_app. simpl length.
    replace (length s + 1)%nat with (S (length s)) by lia.
    rewrite pow16_succ. split; [lia|].
    simpl hex_fixed.
    replace ((16 * a + d) / 16) with a.
    2:{ symmetry. rewrite N.mul_comm. rewrite N.div_add_l by lia.
        rewrite N.div_small by lia. lia. }
    replace ((16 * a + d) mod 16) with d.
    2:{ symmetry. rewrite N.add_comm, N.mul_comm, N.Div0.mod_add.
        apply N.mod_small. lia. }
    rewrite <- Hs. reflexivity.
Qed.

Lemma hex_fixed_digits w : forall n c,
  In c (hex_fixed w n) -> hex_value c <> None.
Proof.
  induction w as [|w IH]; intros n c H; simpl in H; [contradiction|].
  apply in_app_or in H as [H|[<-|[]]].
  - eapply IH; eassumption.
  - rewrite hex_value_digit by (apply N.mod_lt; lia). discriminate.
Qed.

Lemma hex_fixed_no_dash w n : ~ In "-"%char (hex_fixed w n).
Proof. intros H. apply hex_fixed_digits in H. apply H. reflexivity. Qed.

(** *** Splitting and joining *)

Lemma split_on_nonempty sep s : split_on sep s <> [].
Proof.
  destruct s as [|c s]; simpl; [discriminate|].
  destruct (Ascii.eqb c sep); [discriminate|].
  destruct (split_on sep s); discriminate.
Qed.

Lemma split_on_absent sep a : ~ In sep a -> split_on sep a = [a].
Proof.
  induction a as [|c a IH]; intros H; simpl; [reflexivity|].
  destruct (Ascii.eqb_spec c sep) as [->|Hne].
  - exfalso. apply H. left. reflexivity.
  - rewrite IH; [reflexivity|]. intros Hin. apply H. right. exact Hin.
Qed.

Lemma split_on_app sep a b :
  ~ In sep a -> split_on sep (a ++ sep :: b) = a :: split_on sep b.
Proof.
  induction a as [|c a IH]; intros H; simpl.
  - rewrite Ascii.eqb_refl. reflexivity.
  - destruct (Ascii.eqb_spec c sep) as [->|Hne].
    + exfalso. apply H. left. reflexivity.
    + rewrite IH; [reflexivity|]. intros Hin. apply H. right. exact Hin.
Qed.

Lemma join_split_on sep s : join sep (split_on sep s) = s.
Proof.
  induction s as [|c s IH]; simpl; [reflexivity|].
  destruct (Ascii.eqb_spec c sep) as [->|Hne].
  - pose proof (split_on_nonempty sep s) as Hne.
    destruct (split_on sep s) as [|f fs] eqn:E; [contradiction|].
    simpl. simpl in IH. rewrite IH. reflexivity.
  - destruct (split_on sep s) as [|f fs] eqn:E.
    + simpl in IH. subst s. reflexivity.
    + destruct fs as [|g gs]; simpl in *; rewrite <- IH; reflexivity.
Qed.

Lemma split_on_join sep (fields : list (list ascii)) :
  fields <> [] ->
  Forall (fun f => ~ In sep f) fields ->
  split_on sep (join sep fields) = fields.
Proof.
  induction fields as [|f rest IH]; intros Hne HF; [contradiction|].
  inversion HF as [|? ? Hf Hrest]; subst.
  destruct rest as [|g rest'].
  - simpl. apply split_on_absent. exact Hf.
  - change (join sep (f :: g :: rest')) with (f ++ sep :: join sep (g :: rest')).
    rewrite split_on_app by exact Hf.
    rewrite IH; [reflexivity|discriminate|exact Hrest].
Qed.

Lemma split_first_absent sep a : ~ In sep a -> split_first sep a = None.
Proof.
  induction a as [|c a IH]; intros H; simpl; [reflexivity|].
  destruct (Ascii.eqb_spec c sep) as [->|Hne].
  - exfalso. apply H. left. reflexivity.
  - rewrite IH; [reflexivity|]. intros Hin. apply H. right. exact Hin.
Qed.

Lemma split_first_app sep a b :
  ~ In sep a -> split_first sep (a ++ sep :: b) = Some (a, b).
Proof.
  induction a as [|c a IH]; intros H; simpl.
  - rewrite Ascii.eqb_refl. reflexivity.
  - destruct (Ascii.eqb_spec c sep) as [->|Hne].
    + exfalso. apply H. left. reflexivity.
    + rewrite IH; [reflexivity|]. intros Hin. apply H. right. exact Hin.
Qed.

(** *** Percent-encoding *)

Lemma pct_char_ok_all c : pct_char_ok c = true.
Proof. each_char c; vm_compute; reflexivity. Qed.

Lemma pct_decode_encode_char c r :
  pct_decode (pct_encode_char c ++ r) =
  match pct_decode r with Some r' => Some (c :: r') | None => None end.
Proof.
  pose proof (pct_char_ok_all c) as H. unfold pct_char_ok in H.
  apply andb_prop in H as [_ H].
  destruct (pct_encode_char c) as [|x [|a [|b [|? ?]]]]; try discriminate.
  - apply andb_prop in H as [H1 H2]. apply Ascii.eqb_eq in H2. subst x.
    simpl. apply negb_true_iff in H1. rewrite H1. reflexivity.
  - apply andb_prop in H as [H1 H2]. apply Ascii.eqb_eq in H1. subst x.
    simpl.
    destruct (hex_value_any a) as [u|]; [|discriminate].
    destruct (hex_value_any b) as [v|]; [|discriminate].
    apply Ascii.eqb_eq in H2. rewrite H2. reflexivity.
Qed.

Lemma pct_decode_encode s : pct_decode (pct_encode s) = Some s.
Proof.
  induction s as [|c s IH]; [reflexivity|].
  unfold pct_encode in *. simpl flat_map.
  rewrite pct_decode_encode_char, IH. reflexivity.
Qed.

Lemma pct_encode_no_separator s x :
  In x (pct_encode s) -> separator x = false.
Proof.
  unfold pct_encode. intros H. apply in_flat_map in H as [c [_ H]].
  pose proof (pct_char_ok_all c) as Hc. unfold pct_char_ok in Hc.
  apply andb_prop in Hc as [Hc _].
  rewrite forallb_forall in Hc. apply Hc in H.
  apply negb_true_iff in H. exact H.
Qed.

Lemma pct_encode_free s sep :
  separator sep = true -> ~ In sep (pct_encode s).
Proof.
  intros Hsep Hin. apply pct_encode_no_separator in Hin. congruence.
Qed.

End WireFacts.

(* ===================================================================== *)
(** ** Properties of the Context Carrier *)
(* ===================================================================== *)

Section CarrierFacts.
Local Open Scope N_scope.

Lemma pow16_32 : 16 ^ N.of_nat 32 = 2 ^ 128.
Proof. reflexivity. Qed.

Lemma pow16_16 : 16 ^ N.of_nat 16 = 2 ^ 64.
Proof. reflexivity. Qed.

Lemma pow16_2 : 16 ^ N.of_nat 2 = 256.
Proof. reflexivity. Qed.

Lemma split_traceparent v t sp f :
  ~ In "-"%char v -> ~ In "-"%char t -> ~ In "-"%char sp -> ~ In "-"%char f ->
  split_on "-"%char (v ++ "-"%char :: t ++ "-"%char :: sp ++ "-"%char :: f)
  = [v; t; sp; f].
Proof.
  intros Hv Ht Hsp Hf.
  rewrite split_on_app by exact Hv.
  rewrite split_on_app by exact Ht.
  rewrite split_on_app by exact Hsp.
  rewrite split_on_absent by exact Hf. reflexivity.
Qed.

(** Parsing the rendering of ids and flags in range gives them back. *)
Lemma parse_traceparent_fields tid sid fl :
  0 < tid < 2 ^ 128 -> 0 < sid < 2 ^ 64 -> fl < 256 ->
  parse_traceparent
    (bytes_of "00" ++ "-"%char :: hex_fixed 32 tid
       ++ "-"%char :: hex_fixed 16 sid ++ "-"%char :: hex_fixed 2 fl)
  = Some (mkSpanContext tid sid (N.testbit fl 0)).
Proof.
  intros Ht Hs Hf. unfold parse_traceparent.
  rewrite split_traceparent; try apply hex_fixed_no_dash.
  2:{ simpl. intros [H|[H|[]]]; discriminate. }
  rewrite text_of_bytes_of. simpl negb at 1. cbv iota.
  rewrite !length_hex_fixed. simpl negb at 1. cbv iota.
  rewrite !parse_hex_fixed by (rewrite ?pow16_32, ?pow16_16, ?pow16_2; lia).
  unfold isValidTraceId, isValidSpanId.
  destruct Ht as [Ht1 Ht2], Hs as [Hs1 Hs2].
  apply N.ltb_lt in Ht1, Ht2, Hs1, Hs2.
  rewrite Ht1, Ht2, Hs1, Hs2. reflexivity.
Qed.

Lemma parse_render_traceparent sc :
  0 < traceId sc < 2 ^ 128 -> 0 < spanId sc < 2 ^ 64 ->
  parse_traceparent (render_traceparent sc) = Some sc.
Proof.
  intros Ht Hs. unfold render_traceparent.
  rewrite parse_traceparent_fields; try assumption.
  - destruct sc as [t s []]; reflexivity.
  - destruct (sampled sc); simpl; lia.
Qed.

(** Whatever parses as a traceparent is well formed. *)
Lemma parse_traceparent_sound s sc :
  parse_traceparent s = Some sc -> well_formed_traceparent s.
Proof.
  unfold parse_traceparent. intros H.
  pose proof (join_split_on "-"%char s) as Hjoin.
  destruct (split_on "-"%char s) as [|v [|t [|sp [|f [|? ?]]]]]; try discriminate.
  simpl in Hjoin.
  destruct (String.eqb_spec (text_of v) "00") as [Hv|]; [|discriminate].
  simpl negb in H. cbv iota in H.
  destruct (length t =? 32)%nat eqn:Lt; [|discriminate].
  destruct (length sp =? 16)%nat eqn:Lsp; [|discriminate].
  destruct (length f =? 2)%nat eqn:Lf; [|discriminate].
  simpl in H.
  apply Nat.eqb_eq in Lt, Lsp, Lf.
  destruct (parse_hex t) as [tid|] eqn:Pt; [|discriminate].
  destruct (parse_hex sp) as [sid|] eqn:Psp; [|discriminate].
  destruct (parse_hex f) as [fl|] eqn:Pf; [|discriminate].
  destruct (isValidTraceId tid && isValidSpanId sid) eqn:V; [|discriminate].
  apply andb_prop in V as [Vt Vs].
  apply andb_prop in Vt as [Vt1 Vt2]. apply andb_prop in Vs as [Vs1 Vs2].
  apply N.ltb_lt in Vt1, Vt2, Vs1, Vs2.
  apply hex_fixed_parse in Pt as [_ Pt], Psp as [_ Psp], Pf as [Pfl Pf].
  rewrite Lt in Pt. rewrite Lsp in Psp. rewrite Lf in Pf, Pfl.
  rewrite pow16_2 in Pfl.
  exists tid, sid, fl. repeat split; try assumption.
  rewrite <- Pt, <- Psp, <- Pf.
  apply (f_equal bytes_of) in Hv. rewrite bytes_of_text_of in Hv.
  rewrite <- Hv. symmetry. exact Hjoin.
Qed.

Lemma well_formed_traceparent_length s :
  well_formed_traceparent s -> length s = 55%nat.
Proof.
  intros (tid & sid & fl & _ & _ & _ & ->).
  repeat (rewrite length_app || rewrite length_cons || rewrite length_hex_fixed).
  reflexivity.
Qed.

(** *** Baggage members *)

Lemma parse_render_entry kv : parse_entry (render_entry kv) = Some kv.
Proof.
  destruct kv as [k [v md]]. unfold render_entry, parse_entry. simpl.
  assert (Hk : forall sep, separator sep = true ->
                 ~ In sep (pct_encode (bytes_of k)))
    by (intros; apply pct_encode_free; assumption).
  assert (Hv : forall sep, separator sep = true ->
                 ~ In sep (pct_encode (bytes_of v)))
    by (intros; apply pct_encode_free; assumption).
  assert (Hkv : ~ In ";"%char
                  (pct_encode (bytes_of k) ++ "="%char :: pct_encode (bytes_of v))).
  { intros Hin. apply in_app_or in Hin as [Hin|[Hin|Hin]].
    - revert Hin. apply Hk. reflexivity.
    - discriminate.
    - revert Hin. apply Hv. reflexivity. }
  destruct md as [m|].
  - replace (pct_encode (bytes_of k) ++ "="%char :: pct_encode (bytes_of v)
               ++ ";"%char :: bytes_of m)
      with ((pct_encode (bytes_of k) ++ "="%char :: pct_encode (bytes_of v))
              ++ ";"%char :: bytes_of m)
      by (rewrite <- app_assoc; reflexivity).
    rewrite split_first_app by exact Hkv.
    rewrite split_first_app by (apply Hk; reflexivity).
    rewrite !pct_decode_encode, !text_of_bytes_of. reflexivity.
  - rewrite app_nil_r. rewrite split_first_absent by exact Hkv.
    rewrite split_first_app by (apply Hk; reflexivity).
    rewrite !pct_decode_encode, !text_of_bytes_of. reflexivity.
Qed.

Lemma render_entry_no_comma kv :
  valid_entry kv -> ~ In ","%char (render_entry kv).
Proof.
  destruct kv as [k [v md]]. unfold valid_entry, render_entry. simpl.
  intros Hmd Hin.
  apply in_app_or in Hin as [Hin|[Hin|Hin]].
  - revert Hin. apply pct_encode_free. reflexivity.
  - discriminate.
  - apply in_app_or in Hin as [Hin|Hin].
    + revert Hin. apply pct_encode_free. reflexivity.
    + destruct md as [m|]; [|contradiction].
      destruct Hin as [Hin|Hin]; [discriminate|]. apply Hmd. exact Hin.
Qed.

Lemma parse_render_baggage b :
  b <> [] -> Forall valid_entry b -> parse_baggage (render_baggage b) = b.
Proof.
  intros Hne Hv. unfold parse_baggage, render_baggage.
  rewrite split_on_join.
  - clear Hne Hv. induction b as [|kv b IH]; [reflexivity|].
    simpl. rewrite parse_render_entry. simpl. f_equal. exact IH.
  - destruct b; [contradiction|discriminate].
  - rewrite Forall_map. eapply Forall_impl; [exact Hv|].
    intros kv Hkv. simpl. apply render_entry_no_comma. exact Hkv.
Qed.

Lemma render_baggage_nonempty kv b : render_baggage (kv :: b) <> [].
Proof.
  unfold render_baggage. intros H.
  assert (In "="%char (join ","%char (map render_entry (kv :: b)))) as Hin.
  { simpl. destruct (map render_entry b).
    - unfold render_entry. apply in_or_app. right. left. reflexivity.
    - apply in_or_app. left. unfold render_entry.
      apply in_or_app. right. left. reflexivity. }
  rewrite H in Hin. contradiction.
Qed.

(** Claim C1.  For every valid execution context [c] (trace id, span id,
    sampled flag, baggage), extracting from the headers that the composite
    propagator of the bootstrap injects for [c] gives [c] back. *)
Theorem extract_inject_roundtrip (c : Context) :
  valid_context c ->
  extract Carrier.textMapPropagator ROOT_CONTEXT (inject Carrier.textMapPropagator c ∅) = c.
Proof.
  intros [(sc & Hsc & Ht & Hs) Hb].
  destruct c as [osc bag]. simpl in Hsc, Hb. subst osc.
  assert (Hvalid : isValidTraceId (traceId sc) && isValidSpanId (spanId sc) = true).
  { unfold isValidTraceId, isValidSpanId.
    destruct Ht as [Ht1 Ht2], Hs as [Hs1 Hs2].
    apply N.ltb_lt in Ht1, Ht2, Hs1, Hs2. rewrite Ht1, Ht2, Hs1, Hs2. reflexivity. }
  cbn [Carrier.textMapPropagator CompositePropagator inject extract fold_left
       W3CTraceContextPropagator W3CBaggagePropagator spanContext baggage].
  rewrite Hvalid.
  destruct bag as [|kv bag].
  - set (car := <[TRACE_PARENT_HEADER := _]> _).
    assert (L1 : car !! TRACE_PARENT_HEADER = Some (text_of (render_traceparent sc)))
      by apply lookup_insert_eq.
    assert (L2 : car !! BAGGAGE_HEADER = None)
      by (subst car; rewrite lookup_insert_ne by (intros E; discriminate E);
          apply lookup_empty).
    rewrite L1, L2, bytes_of_text_of.
    rewrite parse_render_traceparent by assumption. reflexivity.
  - set (car := <[BAGGAGE_HEADER := _]> _).
    assert (L1 : car !! TRACE_PARENT_HEADER = Some (text_of (render_traceparent sc)))
      by (subst car; rewrite lookup_insert_ne by (intros E; discriminate E);
          apply lookup_insert_eq).
    assert (L2 : car !! BAGGAGE_HEADER = Some (text_of (render_baggage (kv :: bag))))
      by apply lookup_insert_eq.
    rewrite L1, L2, !bytes_of_text_of.
    rewrite parse_render_traceparent by assumption.
    cbn [baggage spanContext ROOT_CONTEXT].
    pose proof (render_baggage_nonempty kv bag) as Hne.
    destruct (render_baggage (kv :: bag)) as [|x r] eqn:E; [contradiction|].
    rewrite <- E. rewrite parse_render_baggage; [reflexivity|discriminate|exact Hb].
Qed.

(** The round trip on the context the service propagates: a sampled span
    with the baggage entry [user.plan=enterprise]. *)
Lemma extract_inject_roundtrip_witness :
  valid_context sample_context
  /\ extract Carrier.textMapPropagator ROOT_CONTEXT
       (inject Carrier.textMapPropagator sample_context ∅) = sample_context.
Proof.
  assert (H : valid_context sample_context).
  { split.
    - exists (mkSpanContext 5 7 true). simpl. repeat split; lia.
    - repeat constructor. }
  split; [exact H | exact (extract_inject_roundtrip sample_context H)].
Defined.

(** Claim C2.  Whenever the incoming header map has no traceparent header
    or one that is not well formed, extraction yields a context without a
    parent (a new root).  Extraction is a total function: there is no
    input on which it fails. *)
Theorem extract_malformed_is_root (carrier : gmap string string) :
  (carrier !! TRACE_PARENT_HEADER = None
   \/ exists h, carrier !! TRACE_PARENT_HEADER = Some h
                /\ ~ well_formed_traceparent (bytes_of h)) ->
  spanContext (extract Carrier.textMapPropagator ROOT_CONTEXT carrier) = None.
Proof.
  intros H.
  cbn [Carrier.textMapPropagator CompositePropagator extract fold_left
       W3CTraceContextPropagator W3CBaggagePropagator].
  assert (Hroot : match carrier !! TRACE_PARENT_HEADER with
                  | Some h => match parse_traceparent (bytes_of h) with
                              | Some sc => mkContext (Some sc) (baggage ROOT_CONTEXT)
                              | None => ROOT_CONTEXT
                              end
                  | None => ROOT_CONTEXT
                  end = ROOT_CONTEXT).
  { destruct H as [->|(h & -> & Hbad)]; [reflexivity|].
    destruct (parse_traceparent (bytes_of h)) as [sc|] eqn:P; [|reflexivity].
    exfalso. apply Hbad. eapply parse_traceparent_sound. exact P. }
  rewrite Hroot.
  destruct (carrier !! BAGGAGE_HEADER) as [b|]; [|reflexivity].
  destruct (bytes_of b); reflexivity.
Qed.

(** A header that is too short to be a traceparent. *)
Lemma extract_malformed_is_root_witness :
  spanContext (extract Carrier.textMapPropagator ROOT_CONTEXT
                 {[ "traceparent"%string := "00-zz-01"%string ]}) = None.
Proof.
  apply extract_malformed_is_root. right. exists "00-zz-01"%string. split.
  - reflexivity.
  - intros Hwf. apply well_formed_traceparent_length in Hwf. discriminate Hwf.
Defined.

End CarrierFacts.

(* ===================================================================== *)
(** ** Properties of the sampler *)
(* ===================================================================== *)

Section SamplingFacts.
Local Open Scope N_scope.

(** Both bootstraps, when their SDK starts, configure it with
    [new ParentBasedSampler({ root: new OurSampler() })]. *)
Lemma configured_samplers_started u serviceName w :
  configured_samplers (Returned u) serviceName w
  = [ParentBased Our; ParentBased Our]%list.
Proof.
  unfold configured_samplers, appended. destruct u. cbn.
  rewrite <- !app_assoc, !drop_app_length. reflexivity.
Qed.

Lemma configured_samplers_parent_based r serviceName w spec :
  In spec (configured_samplers r serviceName w) -> spec = ParentBased Our.
Proof.
  destruct r as [u|e].
  - rewrite configured_samplers_started. cbn. intuition congruence.
  - unfold configured_samplers, appended. cbn.
    rewrite <- !app_assoc, !drop_app_length. cbn. contradiction.
Qed.



End SamplingFacts.

(* ===================================================================== *)
(** ** Properties of the bootstrap *)
(* ===================================================================== *)

Section BootstrapFacts.
Local Open Scope Z_scope.
Local Open Scope string_scope.
Local Open Scope list_scope.

Lemma appended_app w w' delta :
  trace w' = trace w ++ delta -> appended w w' = delta.
Proof. intros H. unfold appended. rewrite H. apply drop_app_length. Qed.

(** [start] of [tracer.ts] always returns, whatever [sdk.start] does. *)
Lemma tracer_start_returns r name w :
  exists tel w', Tracer.start r name w = (Returned tel, w')
                 /\ meter_name (meter tel) = name /\ tracks tel.
Proof.
  destruct r as [[]|e]; eexists; eexists; (split; [cbn; reflexivity|]);
    (split; [reflexivity|]); repeat split.
Qed.

Lemma tracer_start_tracks r name w tel w' :
  Tracer.start r name w = (Returned tel, w') -> tracks tel.
Proof.
  intros H. destruct (tracer_start_returns r name w) as (t & w1 & E & _ & T).
  rewrite E in H. inversion H; subst. exact T.
Qed.

(** Once the SDK runs, the global propagator is the composite one. *)
Lemma bootstrap_propagator name w :
  propagator (Tracer.start (Returned tt) name w).2 = Some Carrier.textMapPropagator
  /\ propagator (TracerVariant.start (Returned tt) name w).2
     = Some Carrier.textMapPropagator.
Proof. split; reflexivity. Qed.

(** Claim C8.  When [sdk.start()] throws, both [start] functions log the
    failure with [console.error], do not log a successful start, and
    return normally the meter named after the service and the five
    tracking functions, each recording into its instrument. *)
Theorem start_survives_sdk_failure (e : Thrown) (serviceName : string) (w : World) :
  (exists tel w',
     Tracer.start (Raised e) serviceName w = (Returned tel, w')
     /\ meter_name (meter tel) = serviceName /\ tracks tel
     /\ In (ConsoleError "Error starting OpenTelemetry SDK:" (Some e))
          (appended w w')
     /\ ~ In (ConsoleLog "OpenTelemetry SDK started successfully") (appended w w'))
  /\ (exists tel w',
        TracerVariant.start (Raised e) serviceName w = (Returned tel, w')
        /\ meter_name (meter tel) = serviceName /\ tracks tel
        /\ In (ConsoleError "Error starting OpenTelemetry SDK:" (Some e))
             (appended w w')
        /\ ~ In (ConsoleLog "OpenTelemetry SDK started successfully")
             (appended w w')).
Proof.
  split.
  - eexists; eexists. split; [cbn; reflexivity|]. split; [reflexivity|].
    split; [repeat split|]. unfold appended. cbn.
    rewrite <- !app_assoc, drop_app_length. simpl. split; [tauto|].
    intros H. repeat (destruct H as [H|H]; [discriminate H|]). exact H.
  - eexists; eexists. split; [cbn; reflexivity|]. split; [reflexivity|].
    split; [repeat split|]. unfold appended. cbn.
    rewrite <- !app_assoc, drop_app_length. simpl. split; [tauto|].
    intros H. repeat (destruct H as [H|H]; [discriminate H|]). exact H.
Qed.

(** The two bootstraps differ beyond the trace endpoint: run from a fresh
    process for the same service, they do not leave the same effects even
    when both SDKs are pointed at one endpoint. *)
Lemma bootstrap_variants_differ :
  ~ same_but_endpoint (Returned tt) "todo-service" initial_world.
Proof.
  intros (_ & _ & H). specialize (H EmptyString).
  apply (f_equal length) in H. vm_compute in H. discriminate H.
Qed.

(** Claim C9, amended.  For the same service name and the same outcome of
    [sdk.start()], the two bootstraps return the same handle (meter and
    the five tracking functions, hence the same instruments and label
    sets), register the same propagator and, apart from the profiler,
    leave the same effects once both SDKs are pointed at one trace
    endpoint (same resource attributes, instrumentations, sampler and
    propagator).  They differ in the endpoint, [collector] against
    [jaeger], and in that [tracer.ts] also initialises and starts the
    profiler and installs the SIGINT handler. *)
Theorem bootstrap_variants_agree (r : Outcome unit) (serviceName : string)
    (w : World) :
  let a := Tracer.start r serviceName w in
  let b := TracerVariant.start r serviceName w in
  a.1 = b.1
  /\ propagator a.2 = propagator b.2
  /\ (forall url,
        map (retarget url)
          (List.filter (fun e => negb (is_profiling e)) (appended w a.2))
        = map (retarget url) (appended w b.2))
  /\ List.filter is_profiling (appended w a.2)
     = [PyroscopeInit "todo-app" "http://pyroscope:4040"; PyroscopeStart;
        ProcessOn "SIGINT"
          [DoConsoleLog "Shutting down Pyroscope..."; DoPyroscopeStop; DoExit 0]]
  /\ List.filter is_profiling (appended w b.2) = []
  /\ trace_endpoints (appended w a.2)
     = match r with
       | Returned _ => ["http://collector:4318/v1/traces"]
       | Raised _ => []
       end
  /\ trace_endpoints (appended w b.2)
     = match r with
       | Returned _ => ["http://jaeger:4318/v1/traces"]
       | Raised _ => []
       end.
Proof.
  cbv zeta. unfold appended.
  destruct r as [[]|e]; cbn; rewrite <- !app_assoc, !drop_app_length;
    repeat split.
Qed.

End BootstrapFacts.

(* ===================================================================== *)
(** ** Properties of the service *)
(* ===================================================================== *)

(** One step of symbolic execution of a computation. *)
Ltac step :=
  cbv beta delta [bind try_catch finally];
  cbn [bind ret throw try_catch finally effect Date_now elapse await lift emit
       advance span_op Otel.record Otel.add fst snd now next_span propagator
       trace with_res with_route res_on_finish req res on_finish statusCode
       body res_json res_status res_sendStatus method path query route
       instanceof_Error setBaggage activeSpan activeBaggage option_map].

(** Normal form of the trace of a world built by [emit] and [advance]. *)
Ltac trace_world := cbn [trace advance emit now next_span propagator].

Section OutboundCall.
Local Open Scope Z_scope.
Local Open Scope string_scope.
Local Open Scope list_scope.

(** What one call of [trackInternalApiCall] does, in full: the result is
    the outcome of [axios]; the span is started, fed and ended. *)
Lemma trackInternalApiCall_run env active url method baggage w :
  let id := next_span w in
  let headers := sent_headers active w in
  let r := axios env method url headers in
  trackInternalApiCall env active url method baggage w
  = (r, mkWorld (now w + axios_ms env) (S id) (propagator w)
          (trace w
             ++ SpanStart id "internal-api-calls" ("Internal API Call: " ++ url)%string
             :: HttpOut method url headers
             :: map (SpanEvent id) (call_ops url method r ++ [End]))).
Proof.
  cbv zeta. unfold trackInternalApiCall, sent_headers.
  cbv [bind finally try_catch startSpan propagation_inject effect await
       span_op ret throw emit advance now next_span propagator trace].
  destruct w as [t n p tr]. cbn [now next_span propagator trace].
  set (headers := match p with Some q => _ | None => _ end).
  destruct (axios env method url headers) as [response|error].
  - cbn. rewrite <- !app_assoc. reflexivity.
  - cbn. destruct (instanceof_Error error); cbn; rewrite <- !app_assoc; reflexivity.
Qed.

Lemma span_ops_events id ops :
  span_ops id (map (SpanEvent id) ops) = ops.
Proof.
  induction ops as [|op ops IH]; [reflexivity|].
  cbn. rewrite Nat.eqb_refl. cbn. f_equal. exact IH.
Qed.

(** Claim C6, amended.  [trackInternalApiCall] returns exactly the outcome
    of the wrapped call: its response on success, the thrown value
    otherwise.  A thrown [Error] instance has been recorded on the span,
    with status ERROR and its message, before it is re-raised; any other
    thrown value is re-raised without a record.  On success no exception
    is recorded.  On every path the span the wrapper started is ended
    exactly once, as its last operation. *)
Theorem trackInternalApiCall_observational env active url method baggage w :
  let run := trackInternalApiCall env active url method baggage w in
  let ops := span_ops (next_span w) (appended w run.2) in
  run.1 = axios env method url (sent_headers active w)
  /\ (forall e, run.1 = Raised e ->
        if instanceof_Error e
        then In (RecordException e) ops /\ In (SetStatus ERROR (message e)) ops
        else List.filter is_RecordException ops = [])
  /\ (forall response, run.1 = Returned response ->
        List.filter is_RecordException ops = [])
  /\ length (List.filter is_End ops) = 1%nat
  /\ last ops = Some End.
Proof.
  cbv zeta. rewrite trackInternalApiCall_run. cbn [fst snd].
  erewrite appended_app by (cbn [trace]; reflexivity).
  change (span_ops (next_span w) (?a :: ?b :: ?l)) with (span_ops (next_span w) l).
  rewrite span_ops_events.
  set (r := axios env method url (sent_headers active w)).
  split; [reflexivity|].
  destruct r as [response|error]; cbn [call_ops].
  - repeat split; try discriminate; reflexivity.
  - split; [|split; [discriminate|]].
    + intros e [= <-]. destruct (instanceof_Error error) eqn:E.
      * split; cbn; tauto.
      * reflexivity.
    + destruct error; cbn; split; reflexivity.
Qed.

(** The wrapped call rejects with a value that is not an [Error]: the
    value is re-raised, and nothing was recorded on the span. *)
Lemma trackInternalApiCall_unrecorded_throw :
  ~ observational_wrapper (env_throwing (OtherValue "boom")) (mkActive None [])
      "http://auth:8080/auth" "GET" [] fresh_world.
Proof.
  intros (_ & Hrec & _).
  specialize (Hrec (OtherValue "boom") eq_refl).
  vm_compute in Hrec. destruct Hrec as [H|[]]. discriminate H.
Qed.

End OutboundCall.

Section Handler.
Local Open Scope Z_scope.
Local Open Scope string_scope.
Local Open Scope list_scope.

Variable tel : Telemetry.
Hypothesis Htel : tracks tel.
Variable env : Env.
Variable active : Active.

Lemma observations_app n t1 t2 :
  observations n (t1 ++ t2) = observations n t1 ++ observations n t2.
Proof. apply omap_app. Qed.

Lemma observations_store_only n delta :
  n <> "redis_calls" -> Forall store_measure_only delta -> observations n delta = [].
Proof.
  intros Hn. induction 1 as [|e delta He _ IH]; [reflexivity|].
  cbn. destruct e; try exact IH. cbn in He.
  destruct (String.eqb_spec (name i) n) as [E|E]; [congruence|exact IH].
Qed.

Lemma recorded_exceptions_app t1 t2 :
  recorded_exceptions (t1 ++ t2) = recorded_exceptions t1 ++ recorded_exceptions t2.
Proof. apply omap_app. Qed.

Lemma recorded_exceptions_reads delta :
  Forall read_effect delta -> recorded_exceptions delta = [].
Proof.
  induction 1 as [|e delta He _ IH]; [reflexivity|].
  destruct e; cbn in He; try contradiction; exact IH.
Qed.

Lemma Forall_read_store delta :
  Forall read_effect delta -> Forall store_measure_only delta.
Proof.
  intros H. eapply Forall_impl; [exact H|].
  intros e. destruct e; cbn; auto.
Qed.

Lemma filter_redis_no_store delta :
  Forall no_store delta -> List.filter is_redis delta = [].
Proof.
  induction 1 as [|e delta He _ IH]; [reflexivity|].
  cbn. unfold no_store in He. rewrite He. exact IH.
Qed.

Lemma trackRedisCall_run d op w :
  trackRedisCall tel d op w
  = (Returned tt,
     emit (Measure (mkInstrument Histogram "redis_calls"
                      "Tracks Redis call duration") d
             [("operation", LString op)]) w).
Proof. destruct Htel as (_ & H & _). rewrite H. reflexivity. Qed.

Lemma trackHttpRequest_run d r s m w :
  trackHttpRequest tel d r s m w
  = (Returned tt,
     emit (Measure (mkInstrument Histogram "http_calls"
                      "Tracks HTTP request duration") d
             [("route", opt_string r); ("status", opt_number s);
              ("method", opt_string m)]) w).
Proof. destruct Htel as (H & _). rewrite H. reflexivity. Qed.

(** The loop over the keys leaves spans and propagator alone and appends
    only reads and their measurements. *)
Lemma read_todos_run keys : forall todos w,
  exists o w' delta,
    read_todos tel env keys todos w = (o, w')
    /\ next_span w' = next_span w /\ propagator w' = propagator w
    /\ trace w' = trace w ++ delta /\ Forall read_effect delta.
Proof.
  induction keys as [|key rest IH]; intros todos w.
  - exists (Returned todos), w, []. cbn. rewrite app_nil_r. repeat split. constructor.
  - cbn [read_todos].
    assert (Hfin : forall o (w1 : World) d1,
              next_span w1 = next_span w -> propagator w1 = propagator w ->
              trace w1 = trace w ++ d1 -> Forall read_effect d1 ->
              exists o' w' delta, (o, w1) = (o' : Outcome (list Json), w')
                /\ next_span w' = next_span w /\ propagator w' = propagator w
                /\ trace w' = trace w ++ delta /\ Forall read_effect delta).
    { intros o w1 d1 Hn Hp Ht HF. exists o, w1, d1. auto. }
    assert (Hrec : forall todos' (w1 : World) d1,
              next_span w1 = next_span w -> propagator w1 = propagator w ->
              trace w1 = trace w ++ d1 -> Forall read_effect d1 ->
              exists o' w' delta, read_todos tel env rest todos' w1 = (o', w')
                /\ next_span w' = next_span w /\ propagator w' = propagator w
                /\ trace w' = trace w ++ delta /\ Forall read_effect delta).
    { intros todos' w1 d1 Hn Hp Ht HF.
      destruct (IH todos' w1) as (o' & w3 & d3 & E3 & Hn3 & Hp3 & Ht3 & HF3).
      exists o', w3, (d1 ++ d3). rewrite E3, Hn3, Hp3, Ht3, Hn, Hp, Ht.
      rewrite app_assoc. repeat split. apply Forall_app. auto. }
    step. destruct (redis_get env key) as [item|e]; step.
    + rewrite trackRedisCall_run. step.
      destruct (truthy item); [destruct item as [s|]|]; step.
      * destruct (JSON_parse env s) as [j|e]; step.
        -- eapply Hrec; cbn; try reflexivity.
           ++ rewrite <- !app_assoc. reflexivity.
           ++ repeat constructor.
        -- eapply Hfin; cbn; try reflexivity.
           ++ rewrite <- !app_assoc. reflexivity.
           ++ repeat constructor.
      * eapply Hrec; cbn; try reflexivity.
        -- rewrite <- !app_assoc. reflexivity.
        -- repeat constructor.
      * eapply Hrec; cbn; try reflexivity.
        -- rewrite <- !app_assoc. reflexivity.
        -- repeat constructor.
    + eapply Hfin; cbn; try reflexivity. repeat constructor.
Qed.

(** The route handler always answers and never throws; of the
    measurements it only makes those of [redis_calls]; with the fail flag
    the status is 500; when the auth call throws it answers the JSON
    error without touching the store. *)
Lemma get_todos_run x w :
  exists r w' delta,
    get_todos tel env active x w = (Returned (handled, with_res x r), w')
    /\ body r <> None
    /\ trace w' = trace w ++ delta
    /\ Forall store_measure_only delta
    /\ (truthy (query (req x) !! "fail") = true -> statusCode r = 500)
    /\ (forall e, auth_outcome env active w = Raised e ->
          r = error_response (res x)
          /\ Forall no_store delta
          /\ recorded_exceptions delta
             = if instanceof_Error e then [(next_span w, e)] else []).
Proof.
  unfold get_todos, auth_outcome. cbv beta delta [bind try_catch].
  rewrite trackInternalApiCall_run. cbv zeta.
  fold AUTH_URL. fold USER_PLAN.
  destruct (axios env "GET" AUTH_URL (sent_headers (setBaggage active USER_PLAN) w))
    as [response|error].
  2:{ step. eexists _, _, _. split; [reflexivity|].
      split; [discriminate|]. split; [reflexivity|].
      split; [|split; [reflexivity|]].
      - cbn. destruct (instanceof_Error error); cbn; repeat constructor.
      - intros e [= <-]. split; [reflexivity|]. split.
        + cbn. destruct (instanceof_Error error); cbn; repeat constructor.
        + cbn. destruct (instanceof_Error error); cbn;
            rewrite ?Nat.eqb_refl; reflexivity. }
  step. destruct (redis_keys env "todo:*") as [keys|e]; step.
  2:{ eexists _, _, _. split; [reflexivity|].
      split; [discriminate|].
      split; [trace_world; rewrite <- ?app_assoc; reflexivity|].
      split; [|split; [reflexivity|discriminate]].
      repeat constructor. }
  rewrite trackRedisCall_run. step.
  match goal with
  | |- context [read_todos tel env keys [] ?w1] =>
      destruct (read_todos_run keys [] w1) as (o & w2 & d2 & E & Hn & Hp & Ht & HF)
  end.
  rewrite E. cbn [trace advance emit now next_span propagator] in Ht, Hn, Hp.
  apply Forall_read_store in HF.
  destruct o as [todos|e].
  2:{ step. eexists _, _, _. split; [reflexivity|].
      split; [discriminate|].
      split; [trace_world; rewrite Ht, <- ?app_assoc; reflexivity|].
      split; [|split; [reflexivity|discriminate]].
      cbn. repeat constructor. exact HF. }
  destruct (truthy (query (req x) !! "slow")); step;
    destruct (truthy (query (req x) !! "fail")); step;
    destruct (activeSpan active) as [[id sc]|]; step.
  all: eexists _, _, _; (split; [reflexivity|]);
    (split; [discriminate|]);
    (split; [trace_world; rewrite Ht, <- ?app_assoc; reflexivity|]);
    (split; [|split; [try reflexivity; discriminate|discriminate]]).
  all: cbn;
    repeat first [ exact HF | apply Forall_nil_2
                 | apply Forall_cons; split; [cbn; auto; fail|]
                 | apply Forall_app; split ].
Qed.

(** A request for the route: the tracking layer registers its listener,
    the handler answers, the listener records the request. *)
Lemma handle_request_todos request w r w1 :
  matches "/todos" request = true ->
  get_todos tel env active (arriving tel request w) w
  = (Returned (handled, with_res (arriving tel request w) r), w1) ->
  body r <> None ->
  let x := with_res (arriving tel request w) r in
  handle_request tel env active request w
  = (Returned x, emit (http_calls_observation (now w1 - now w) x) w1).
Proof.
  intros Hm Hrun Hbody. cbv zeta.
  unfold handle_request, app. cbn [dispatch]. unfold track_http_requests.
  cbv beta delta [bind try_catch]. cbn [Date_now ret fst snd].
  cbn [res_on_finish req res on_finish List.app]. rewrite Hm.
  match goal with
  | |- context [get_todos tel env active ?x w] =>
      change x with (arriving tel request w)
  end.
  rewrite Hrun.
  cbn [fst snd ret with_res res body].
  destruct (body r) as [b|] eqn:Hb; [|contradiction].
  unfold arriving at 1 2.
  cbn [run_listeners on_finish with_res with_route res_on_finish List.app req res].
  cbv beta delta [bind]. cbn [Date_now]. rewrite trackHttpRequest_run.
  cbn [ret]. reflexivity.
Qed.

Lemma collect_options_first p request :
  collect_options p request []
  = if allows p request then route_options else [].
Proof.
  unfold collect_options, allows.
  destruct (String.eqb_spec (method request) "OPTIONS") as [E|E].
  - rewrite E. cbn. destruct (path_matches p (path request)); reflexivity.
  - rewrite !andb_false_r. reflexivity.
Qed.

(** Any other request: no layer answers; Express answers an OPTIONS
    request for the path of the route with the methods of the route and
    everything else with 404; the listener records the request. *)
Lemma handle_request_other request w :
  matches "/todos" request = false ->
  exists x,
    handle_request tel env active request w
    = (Returned x, emit (http_calls_observation 0 x) w)
    /\ req x = request
    /\ statusCode (res x) = (if allows "/todos" request then 200 else 404)
    /\ body (res x) <> None.
Proof.
  intros Hm. unfold handle_request, app. cbn [dispatch].
  unfold track_http_requests.
  cbv beta delta [bind try_catch]. cbn [Date_now ret fst snd].
  cbn [res_on_finish req res on_finish List.app]. rewrite Hm.
  rewrite collect_options_first.
  destruct (allows "/todos" request);
    cbn [done route_options sendOptionsResponse finalhandler ret with_res
         res_on_finish res body req on_finish statusCode run_listeners List.app];
    cbv beta delta [bind]; cbn [Date_now]; rewrite trackHttpRequest_run;
    cbn [ret]; rewrite Z.sub_diag; unfold ret;
    (eexists; split; [apply f_equal2; [reflexivity|]; reflexivity|]);
    (split; [reflexivity|]); (split; [reflexivity|discriminate]).
Qed.

End Handler.

Section Requests.
Local Open Scope Z_scope.
Local Open Scope string_scope.
Local Open Scope list_scope.

(** Claim C3.  Every inbound request, whatever its route, the outcome of
    the auth call and of the store, is answered, and handling it appends
    exactly one observation to [http_calls], labelled with the route, the
    status of the response and the method. *)
Theorem http_calls_once r0 w0 tel w1 env active request w :
  Tracer.start r0 "todo-service" w0 = (Returned tel, w1) ->
  exists x w' d,
    handle_request tel env active request w = (Returned x, w')
    /\ body (res x) <> None
    /\ observations "http_calls" (appended w w')
       = [(d, [("route", opt_string (route (req x)));
               ("status", LNumber (statusCode (res x)));
               ("method", LString (method request))])].
Proof.
  intros Hstart. apply tracer_start_tracks in Hstart.
  destruct (matches "/todos" request) eqn:Hm.
  - destruct (get_todos_run tel Hstart env active (arriving tel request w) w)
      as (r & w2 & delta & Hrun & Hbody & Ht & HF & _).
    rewrite (handle_request_todos tel Hstart env active request w r w2 Hm Hrun Hbody).
    eexists _, _, _. split; [reflexivity|]. split; [exact Hbody|].
    erewrite appended_app
      by (cbn [trace emit]; rewrite Ht, <- app_assoc; reflexivity).
    rewrite observations_app, (observations_store_only _ delta)
      by (discriminate || exact HF).
    reflexivity.
  - destruct (handle_request_other tel Hstart env active request w Hm)
      as (x & Hrun & Hreq & Hst & Hbody).
    rewrite Hrun. eexists _, _, _. split; [reflexivity|].
    split; [exact Hbody|].
    erewrite appended_app by (cbn [trace emit]; reflexivity).
    cbn. rewrite Hreq. reflexivity.
Qed.

(** A plain [GET /todos] after a successful bootstrap. *)
Lemma http_calls_once_witness :
  exists tel w1,
    Tracer.start (Returned tt) "todo-service" initial_world = (Returned tel, w1)
    /\ exists x w' d,
         handle_request tel env_ok server_span (get_todos_request []) fresh_world
         = (Returned x, w')
         /\ body (res x) <> None
         /\ observations "http_calls" (appended fresh_world w')
            = [(d, [("route", opt_string (route (req x)));
                    ("status", LNumber (statusCode (res x)));
                    ("method", LString "GET")])].
Proof.
  eexists _, _. split; [cbn; reflexivity|].
  exact (http_calls_once (Returned tt) initial_world _ _ env_ok
           server_span (get_todos_request []) fresh_world eq_refl).
Defined.

(** No request ever reaches [trackError]: the error layer is registered
    before the route and the handler answers its failures itself. *)
Lemma error_count_never r0 w0 tel w1 env active request w :
  Tracer.start r0 "todo-service" w0 = (Returned tel, w1) ->
  observations "error_count"
    (appended w (handle_request tel env active request w).2) = [].
Proof.
  intros Hstart. apply tracer_start_tracks in Hstart.
  destruct (matches "/todos" request) eqn:Hm.
  - destruct (get_todos_run tel Hstart env active (arriving tel request w) w)
      as (r & w2 & delta & Hrun & Hbody & Ht & HF & _).
    rewrite (handle_request_todos tel Hstart env active request w r w2 Hm Hrun Hbody).
    cbn [snd].
    erewrite appended_app
      by (cbn [trace emit]; rewrite Ht, <- app_assoc; reflexivity).
    rewrite observations_app, (observations_store_only _ delta)
      by (discriminate || exact HF).
    reflexivity.
  - destruct (handle_request_other tel Hstart env active request w Hm)
      as (x & Hrun & _).
    rewrite Hrun. cbn [snd].
    erewrite appended_app by (cbn [trace emit]; reflexivity).
    reflexivity.
Qed.

(** Claim C4, on the code.  [GET /todos?fail=1], with the auth endpoint
    answering and one item in the store, completes with status 500, and
    [error_count] has received nothing. *)
Theorem error_count_missed_on_fail :
  (exists x, served_run.1 = Returned x
             /\ method (req x) = "GET" /\ statusCode (res x) = 500)
  /\ observations "error_count" (trace served_run.2) = [].
Proof.
  split.
  - eexists. split; [reflexivity|]. split; vm_compute; reflexivity.
  - vm_compute. reflexivity.
Qed.

(** Three requests with the fail flag.  When the auth call is refused the
    answer is 500 with the JSON error as body and nothing is recorded on
    the active span (handle 0); when everything answers, the body is the
    status text; without an active span no exception is recorded at all. *)
Lemma fail_request_counterexample :
  ~ fail_request_claim (Returned tt) (env_throwing CONNECTION_REFUSED)
      server_span fail_request fresh_world
  /\ response_of refused_run.1
     = Some (mkResponse 500 (Some (JsonBody ERROR_JSON)))
  /\ span_ops 0 (appended fresh_world refused_run.2) = []
  /\ response_of served_run.1
     = Some (mkResponse 500 (Some (TextBody "Internal Server Error")))
  /\ recorded_exceptions (appended fresh_world unobserved_run.2) = [].
Proof.
  assert (Hres : response_of refused_run.1
                 = Some (mkResponse 500 (Some (JsonBody ERROR_JSON))))
    by (vm_compute; reflexivity).
  split; [|split; [exact Hres|repeat split; vm_compute; reflexivity]].
  intros (x & E & _ & Hbody & _). fold refused_run in E.
  rewrite E in Hres. cbn in Hres.
  injection Hres as Hres. rewrite Hres in Hbody. discriminate Hbody.
Qed.

(** Claim C10.  When the auth call of the route handler throws, the
    handler itself returns normally (nothing propagates past it), the
    response has status 500 and the JSON body with the one field [error]
    set to "Internal Server Error", and the run has issued no command to
    the store. *)
Theorem auth_failure_handled r0 w0 tel w1 env active x w e :
  Tracer.start r0 "todo-service" w0 = (Returned tel, w1) ->
  auth_outcome env active w = Raised e ->
  exists w',
    get_todos tel env active x w
    = (Returned (handled, with_res x (mkResponse 500 (Some (JsonBody ERROR_JSON)))), w')
    /\ List.filter is_redis (appended w w') = [].
Proof.
  intros Hstart Hauth. apply tracer_start_tracks in Hstart.
  destruct (get_todos_run tel Hstart env active x w)
    as (r & w2 & delta & Hrun & _ & Ht & _ & _ & H).
  destruct (H e Hauth) as (-> & Hstore & _).
  exists w2. split; [exact Hrun|].
  rewrite (appended_app _ _ _ Ht). apply filter_redis_no_store. exact Hstore.
Qed.

(** The auth endpoint refuses the connection. *)
Lemma auth_failure_handled_witness :
  exists tel w1 w',
    Tracer.start (Returned tt) "todo-service" initial_world = (Returned tel, w1)
    /\ get_todos tel (env_throwing CONNECTION_REFUSED) server_span
         (mkExchange (get_todos_request []) (mkResponse 200 None) []) fresh_world
       = (Returned (handled,
                    mkExchange (get_todos_request [])
                      (mkResponse 500 (Some (JsonBody ERROR_JSON))) []), w')
    /\ List.filter is_redis (appended fresh_world w') = [].
Proof.
  eexists _, _.
  destruct (auth_failure_handled (Returned tt) initial_world _ _
              (env_throwing CONNECTION_REFUSED) server_span
              (mkExchange (get_todos_request []) (mkResponse 200 None) [])
              fresh_world CONNECTION_REFUSED
              eq_refl eq_refl) as (w' & E & Hredis).
  exists w'. split; [cbn; reflexivity|]. split; [exact E | exact Hredis].
Defined.

End Requests.

(* ===================================================================== *)
(** ** Further properties of the service *)
(* ===================================================================== *)

Import Startup Coverage.

(** Durations are differences of clock readings. *)
Ltac clock :=
  repeat match goal with
         | |- context [(?a + ?b - ?a)%Z] => replace (a + b - a)%Z with b by lia
         end.

(** Two worlds with the same fields. *)
Ltac same_world :=
  f_equal;
  [ cbn [length]; rewrite ?Nat2Z.inj_succ; ring
  | cbn; rewrite <- ?app_assoc; reflexivity ].

Section Reads.
Local Open Scope Z_scope.
Local Open Scope string_scope.
Local Open Scope list_scope.

Variable tel : Telemetry.
Hypothesis Htel : tracks tel.
Variable env : Env.

(** Keys whose items are usable are read one by one; the loop then goes
    on with the rest. *)
Lemma read_todos_app pre : forall rest todos w,
  Forall (item_ok env) pre ->
  read_todos tel env (pre ++ rest) todos w
  = read_todos tel env rest (todos ++ parsed_items env pre)
      (mkWorld (now w + redis_ms env * Z.of_nat (length pre)) (next_span w)
         (propagator w) (trace w ++ read_trace env pre)).
Proof.
  induction pre as [|k pre IH]; intros rest todos w Hok.
  - cbn. rewrite !app_nil_r, Z.mul_0_r, Z.add_0_r. destruct w; reflexivity.
  - inversion Hok as [|? ? Hk Hpre]; subst.
    cbn [List.app read_todos parsed_items]. unfold item_ok in Hk.
    step. destruct (redis_get env k) as [[s|]|e]; [| |contradiction]; step;
      rewrite (trackRedisCall_run tel Htel); step.
    + destruct (truthy (Some s)) eqn:Hs.
      * destruct (Hk eq_refl) as [j Hj]. rewrite Hj. step.
        rewrite IH by exact Hpre. trace_world. clock.
        f_equal; [rewrite <- app_assoc; reflexivity|]. same_world.
      * step. rewrite IH by exact Hpre. trace_world. clock.
        f_equal. same_world.
    + cbn [truthy]. step. rewrite IH by exact Hpre. trace_world. clock.
      f_equal. same_world.
Qed.

Lemma read_todos_success keys todos w :
  Forall (item_ok env) keys ->
  read_todos tel env keys todos w
  = (Returned (todos ++ parsed_items env keys),
     mkWorld (now w + redis_ms env * Z.of_nat (length keys)) (next_span w)
       (propagator w) (trace w ++ read_trace env keys)).
Proof.
  intros Hok. rewrite <- (app_nil_r keys) at 1.
  rewrite read_todos_app by exact Hok. reflexivity.
Qed.

(** The first key that cannot be read ends the loop: its read is issued,
    the keys after it are not touched. *)
Lemma read_todos_failure pre k post e todos w :
  Forall (item_ok env) pre -> item_fails env k e ->
  exists w',
    read_todos tel env (pre ++ k :: post) todos w = (Raised e, w')
    /\ next_span w' = next_span w
    /\ exists delta,
         trace w' = trace w ++ delta
         /\ store_commands delta = map RedisGet (pre ++ [k])
         /\ Forall read_effect delta.
Proof.
  intros Hok Hfail. rewrite read_todos_app by exact Hok.
  cbn [read_todos]. step.
  assert (Hreads : store_commands (read_trace env pre) = map RedisGet pre).
  { clear. induction pre as [|a l IH]; [reflexivity|]. cbn. f_equal. exact IH. }
  assert (HF : Forall read_effect (read_trace env pre)).
  { clear. induction pre as [|a l IH]; [constructor|].
    cbn. repeat constructor. exact IH. }
  destruct Hfail as [Hget|(s & Hget & Hs & Hparse)]; rewrite Hget; step.
  - eexists. split; [reflexivity|]. split; [reflexivity|].
    eexists. split; [trace_world; rewrite <- app_assoc; reflexivity|].
    split.
    + unfold store_commands. rewrite List.filter_app, map_app.
      fold (store_commands (read_trace env pre)). rewrite Hreads. reflexivity.
    + apply Forall_app. split; [exact HF|]. repeat constructor.
  - rewrite (trackRedisCall_run tel Htel). step. rewrite Hs, Hparse. step.
    eexists. split; [reflexivity|]. split; [reflexivity|].
    eexists. split; [trace_world; rewrite <- !app_assoc; reflexivity|].
    split.
    + unfold store_commands. rewrite List.filter_app, map_app.
      fold (store_commands (read_trace env pre)). rewrite Hreads. reflexivity.
    + apply Forall_app. split; [exact HF|]. repeat constructor.
Qed.

End Reads.

Section HandlerPaths.
Local Open Scope Z_scope.
Local Open Scope string_scope.
Local Open Scope list_scope.

Variable tel : Telemetry.
Hypothesis Htel : tracks tel.
Variable env : Env.
Variable active : Active.

(** The handler when the auth call and the store answer, in full. *)
Lemma get_todos_success x w response keys :
  auth_outcome env active w = Returned response ->
  redis_keys env "todo:*" = Returned keys ->
  Forall (item_ok env) keys ->
  get_todos tel env active x w
  = (Returned (handled, with_res x (success_response env x response keys)),
     mkWorld (now w + success_elapsed env x keys) (S (next_span w))
       (propagator w) (trace w ++ success_trace env active x w keys)).
Proof.
  intros Hauth Hkeys Hok.
  unfold success_trace, success_response, success_elapsed, call_trace, slow, fail.
  rewrite Hauth. unfold auth_outcome in Hauth.
  unfold get_todos. cbv beta delta [bind try_catch].
  rewrite trackInternalApiCall_run. cbv zeta.
  fold AUTH_URL. fold USER_PLAN. rewrite Hauth. step.
  rewrite Hkeys. step. rewrite (trackRedisCall_run tel Htel). step.
  rewrite (read_todos_success tel Htel env keys [] _ Hok). step.
  trace_world. clock.
  destruct (truthy (query (req x) !! "slow")); step;
    destruct (truthy (query (req x) !! "fail")); step;
    unfold fail_trace; destruct (activeSpan active) as [[id sc]|]; step;
    unfold ret, emit, advance, REDIS_CALLS, BAD_ERROR;
    cbn [now next_span propagator trace];
    (apply f_equal2; [reflexivity|]);
    (f_equal; [ring|]);
    rewrite <- ?app_assoc; cbn [List.app]; rewrite ?app_nil_r; reflexivity.
Qed.


Lemma Forall_read_tail delta :
  Forall read_effect delta -> Forall (tail_effect active) delta.
Proof.
  intros H. eapply Forall_impl; [exact H|].
  intros e. destruct e; cbn; intros; try contradiction; auto.
Qed.

(** The handler on any input: it answers and returns; it starts the one
    span of the auth call and afterwards only talks to the store, sleeps
    or reports the simulated failure; the response is the JSON error, the
    one of [sendStatus(500)], or the listing. *)
Lemma get_todos_shape x w :
  exists r w' rest,
    get_todos tel env active x w = (Returned (handled, with_res x r), w')
    /\ trace w' = trace w ++ call_trace env active w ++ rest
    /\ Forall (tail_effect active) rest
    /\ next_span w' = S (next_span w)
    /\ propagator w' = propagator w
    /\ (r = error_response (res x)
        \/ (fail x = true /\ r = res_sendStatus 500 (res x))
        \/ (fail x = false
            /\ exists response todos,
                 auth_outcome env active w = Returned response
                 /\ r = res_json (JObj [("todos", JArr todos);
                                        ("user", data response)]) (res x))).
Proof.
  unfold call_trace, fail.
  unfold get_todos, auth_outcome. cbv beta delta [bind try_catch].
  rewrite trackInternalApiCall_run. cbv zeta.
  fold AUTH_URL. fold USER_PLAN.
  destruct (axios env "GET" AUTH_URL (sent_headers (setBaggage active USER_PLAN) w))
    as [response|error].
  2:{ step. exists (error_response (res x)). eexists _, [].
      split; [reflexivity|]. rewrite app_nil_r.
      split; [reflexivity|]. split; [constructor|].
      split; [reflexivity|]. split; [reflexivity|]. left. reflexivity. }
  step. destruct (redis_keys env "todo:*") as [keys|e]; step.
  2:{ exists (error_response (res x)). eexists _, _.
      split; [reflexivity|].
      split; [trace_world; rewrite <- ?app_assoc; reflexivity|].
      split; [repeat constructor|].
      split; [reflexivity|]. split; [reflexivity|]. left. reflexivity. }
  rewrite (trackRedisCall_run tel Htel). step.
  match goal with
  | |- context [read_todos tel env keys [] ?w1] =>
      destruct (read_todos_run tel Htel env keys [] w1)
        as (o & w2 & d2 & E & Hn & Hp & Ht & HF)
  end.
  rewrite E. cbn [trace advance emit now next_span propagator] in Ht, Hn, Hp.
  apply Forall_read_tail in HF.
  destruct o as [todos|e].
  2:{ step. exists (error_response (res x)). eexists _, _.
      split; [reflexivity|].
      split; [trace_world; rewrite Ht, <- ?app_assoc; reflexivity|].
      split; [cbn; repeat constructor; exact HF|].
      split; [exact Hn|]. split; [exact Hp|]. left. reflexivity. }
  destruct (truthy (query (req x) !! "slow")); step;
    destruct (truthy (query (req x) !! "fail")); step;
    destruct (activeSpan active) as [[id sc]|] eqn:Hact; step.
  all: eexists _, _, _; (split; [reflexivity|]);
    (split; [trace_world; rewrite Ht, <- ?app_assoc; reflexivity|]);
    (split; [|split; [exact Hn|split; [exact Hp|]]]).
  all: try (right; left; split; reflexivity).
  all: try (right; right; split; [reflexivity|]; eexists _, _;
            split; reflexivity).
  all: cbn;
    repeat first [ exact HF | apply Forall_nil_2
                 | apply Forall_cons; split; [cbn; eauto; fail|]
                 | apply Forall_app; split ].
Qed.

(** The listing of keys throws: the handler answers the JSON error; the
    only command sent to the store is that listing. *)
Lemma get_todos_keys_down x w response e :
  auth_outcome env active w = Returned response ->
  redis_keys env "todo:*" = Raised e ->
  get_todos tel env active x w
  = (Returned (handled, with_res x (error_response (res x))),
     mkWorld (now w + axios_ms env + redis_ms env) (S (next_span w))
       (propagator w)
       (trace w ++ call_trace env active w ++ [RedisKeys "todo:*"])).
Proof.
  intros Hauth Hkeys. unfold call_trace. rewrite Hauth.
  unfold auth_outcome in Hauth.
  unfold get_todos. cbv beta delta [bind try_catch].
  rewrite trackInternalApiCall_run. cbv zeta.
  fold AUTH_URL. fold USER_PLAN. rewrite Hauth. step.
  rewrite Hkeys. step. unfold ret, emit, advance.
  cbn [now next_span propagator trace].
  apply f_equal2; [reflexivity|]. f_equal.
  rewrite <- ?app_assoc. reflexivity.
Qed.

(** An item cannot be read: the handler answers the JSON error, having
    asked the store for the keys and for the items up to the failing
    one. *)
Lemma get_todos_item_fails x w response pre k post e :
  auth_outcome env active w = Returned response ->
  redis_keys env "todo:*" = Returned (pre ++ k :: post) ->
  Forall (item_ok env) pre -> item_fails env k e ->
  exists w' rest,
    get_todos tel env active x w
    = (Returned (handled, with_res x (error_response (res x))), w')
    /\ trace w' = trace w ++ call_trace env active w ++ rest
    /\ store_commands rest = RedisKeys "todo:*" :: map RedisGet (pre ++ [k]).
Proof.
  intros Hauth Hkeys Hok Hfail. unfold call_trace. rewrite Hauth.
  unfold auth_outcome in Hauth.
  unfold get_todos. cbv beta delta [bind try_catch].
  rewrite trackInternalApiCall_run. cbv zeta.
  fold AUTH_URL. fold USER_PLAN. rewrite Hauth. step.
  rewrite Hkeys. step. rewrite (trackRedisCall_run tel Htel). step.
  match goal with
  | |- context [read_todos tel env (pre ++ k :: post) [] ?w1] =>
      destruct (read_todos_failure tel Htel env pre k post e [] w1 Hok Hfail)
        as (w2 & E & Hn & delta & Ht & Hcmd & HF)
  end.
  rewrite E. cbn [trace advance emit now next_span propagator] in Ht, Hn.
  step. eexists _, _. split; [reflexivity|].
  split; [rewrite Ht, <- ?app_assoc; reflexivity|].
  cbn. f_equal. exact Hcmd.
Qed.

End HandlerPaths.

Section TraceFacts.
Local Open Scope Z_scope.
Local Open Scope string_scope.
Local Open Scope list_scope.

Variable env : Env.
Variable active : Active.

Lemma call_ops_no_end url method r :
  List.filter is_End (call_ops url method r) = [].
Proof.
  destruct r as [response|e]; [reflexivity|].
  cbn. destruct (instanceof_Error e); reflexivity.
Qed.

Lemma ended_events id ops :
  ended (map (SpanEvent id) ops) = map (fun _ => id) (List.filter is_End ops).
Proof.
  unfold ended. induction ops as [|op ops IH]; [reflexivity|].
  destruct op; cbn; rewrite ?IH; reflexivity.
Qed.

Lemma started_events id ops : started (map (SpanEvent id) ops) = [].
Proof. induction ops as [|op ops IH]; [reflexivity|]. exact IH. Qed.

Lemma outbound_events id ops : outbound (map (SpanEvent id) ops) = [].
Proof. induction ops as [|op ops IH]; [reflexivity|]. exact IH. Qed.

Lemma observations_events n id ops : observations n (map (SpanEvent id) ops) = [].
Proof. induction ops as [|op ops IH]; [reflexivity|]. exact IH. Qed.

Lemma store_commands_events id ops : store_commands (map (SpanEvent id) ops) = [].
Proof. induction ops as [|op ops IH]; [reflexivity|]. exact IH. Qed.

Lemma started_call_trace w : started (call_trace env active w) = [next_span w].
Proof. unfold call_trace. cbn. rewrite started_events. reflexivity. Qed.

Lemma ended_call_trace w : ended (call_trace env active w) = [next_span w].
Proof.
  unfold call_trace. cbn. rewrite ended_events, List.filter_app, call_ops_no_end.
  reflexivity.
Qed.

Lemma outbound_call_trace w :
  outbound (call_trace env active w)
  = [("GET", AUTH_URL, sent_headers (setBaggage active USER_PLAN) w)].
Proof. unfold call_trace. cbn. rewrite outbound_events. reflexivity. Qed.

Lemma observations_call_trace n w : observations n (call_trace env active w) = [].
Proof. unfold call_trace. cbn. apply observations_events. Qed.

Lemma store_commands_call_trace w : store_commands (call_trace env active w) = [].
Proof. unfold call_trace. cbn. apply store_commands_events. Qed.

Lemma tail_quiet rest :
  Forall (tail_effect active) rest ->
  started rest = [] /\ ended rest = [] /\ outbound rest = [].
Proof.
  induction 1 as [|e rest He _ (IH1 & IH2 & IH3)]; [repeat split|].
  destruct e; cbn in He; try contradiction; cbn; auto.
  destruct op; try contradiction; cbn; auto.
Qed.

Lemma observations_read_trace n keys :
  observations n (read_trace env keys)
  = if String.eqb "redis_calls" n
    then repeat (redis_ms env, [("operation", LString "get")]) (length keys)
    else [].
Proof.
  induction keys as [|k keys IH]; [destruct (String.eqb _ n); reflexivity|].
  change (read_trace env (k :: keys))
    with ([RedisGet k;
           Measure REDIS_CALLS (redis_ms env) [("operation", LString "get")]]
            ++ read_trace env keys).
  rewrite observations_app, IH. unfold observations at 1.
  cbn -[String.eqb]. destruct (String.eqb "redis_calls" n); reflexivity.
Qed.

Lemma store_commands_read_trace keys :
  store_commands (read_trace env keys) = map RedisGet keys.
Proof.
  induction keys as [|k keys IH]; [reflexivity|]. cbn. f_equal. exact IH.
Qed.

Lemma observations_fail_trace n : observations n (fail_trace active) = [].
Proof. unfold fail_trace. destruct (activeSpan active); reflexivity. Qed.

Lemma redis_calls_success (x : Exchange) w keys :
  observations "redis_calls" (success_trace env active x w keys)
  = (redis_ms env, [("operation", LString "keys")])
    :: repeat (redis_ms env, [("operation", LString "get")]) (length keys).
Proof.
  unfold success_trace. rewrite observations_app, observations_call_trace.
  cbn [List.app]. set (rest := read_trace env keys ++ _).
  change (observations "redis_calls" (RedisKeys "todo:*" :: ?m :: rest))
    with ((redis_ms env, [("operation", LString "keys")])
            :: observations "redis_calls" rest).
  subst rest. rewrite !observations_app, observations_read_trace.
  f_equal. replace (observations "redis_calls" (if slow x then _ else _))
    with (@nil (Z * list (string * LabelValue))) by (destruct (slow x); reflexivity).
  replace (observations "redis_calls" (if fail x then _ else _))
    with (@nil (Z * list (string * LabelValue)))
    by (destruct (fail x); [rewrite observations_fail_trace|]; reflexivity).
  cbn [String.eqb Ascii.eqb Bool.eqb]. rewrite !app_nil_r. reflexivity.
Qed.

Lemma recorded_exceptions_read_trace keys :
  recorded_exceptions (read_trace env keys) = [].
Proof. induction keys as [|k keys IH]; [reflexivity|]. exact IH. Qed.

Lemma recorded_exceptions_fail_trace :
  recorded_exceptions (fail_trace active)
  = match activeSpan active with
    | Some sp => [(sp.1, BAD_ERROR)]
    | None => []
    end.
Proof. unfold fail_trace. destruct (activeSpan active) as [[id sc]|]; reflexivity. Qed.

(** On the success path the only exception recorded is the one of the
    simulated failure. *)
Lemma recorded_exceptions_success x w response keys :
  auth_outcome env active w = Returned response ->
  recorded_exceptions (success_trace env active x w keys)
  = if fail x
    then match activeSpan active with
         | Some sp => [(sp.1, BAD_ERROR)]
         | None => []
         end
    else [].
Proof.
  intros Hauth. unfold success_trace, call_trace. rewrite Hauth.
  cbn [call_ops List.app map].
  repeat match goal with
         | |- context [recorded_exceptions (?e :: ?l)] =>
             change (recorded_exceptions (e :: l)) with (recorded_exceptions l)
         end.
  rewrite !recorded_exceptions_app, recorded_exceptions_read_trace.
  destruct (slow x), (fail x); cbn [List.app];
    rewrite ?recorded_exceptions_fail_trace; reflexivity.
Qed.

End TraceFacts.

Section RequestPaths.
Local Open Scope Z_scope.
Local Open Scope string_scope.
Local Open Scope list_scope.

Variable tel : Telemetry.
Hypothesis Htel : tracks tel.
Variable env : Env.
Variable active : Active.

(** A request for the route whose auth call and store answer, in full. *)
Lemma handle_request_success request w response keys :
  matches "/todos" request = true ->
  auth_outcome env active w = Returned response ->
  redis_keys env "todo:*" = Returned keys ->
  Forall (item_ok env) keys ->
  let xin := arriving tel request w in
  let x := with_res xin (success_response env xin response keys) in
  handle_request tel env active request w
  = (Returned x,
     emit (http_calls_observation (success_elapsed env xin keys) x)
       (mkWorld (now w + success_elapsed env xin keys) (S (next_span w))
          (propagator w) (trace w ++ success_trace env active xin w keys))).
Proof.
  intros Hm Hauth Hkeys Hok. cbv zeta.
  pose proof (get_todos_success tel Htel env active (arriving tel request w) w
                response keys Hauth Hkeys Hok) as Hrun.
  assert (Hbody : body (success_response env (arriving tel request w) response keys)
                  <> None).
  { unfold success_response. destruct (fail _); discriminate. }
  rewrite (handle_request_todos tel Htel env active request w _ _ Hm Hrun Hbody).
  cbn [now]. clock. reflexivity.
Qed.

(** A request for the route, whatever happens: the world after it. *)
Lemma handle_request_shape request w :
  matches "/todos" request = true ->
  exists r w1 rest,
    handle_request tel env active request w
    = (Returned (with_res (arriving tel request w) r),
       emit (http_calls_observation (now w1 - now w)
               (with_res (arriving tel request w) r)) w1)
    /\ trace w1 = trace w ++ call_trace env active w ++ rest
    /\ Forall (tail_effect active) rest
    /\ next_span w1 = S (next_span w)
    /\ propagator w1 = propagator w
    /\ (r = error_response (mkResponse 200 None)
        \/ (truthy (query request !! "fail") = true
            /\ r = res_sendStatus 500 (mkResponse 200 None))
        \/ (truthy (query request !! "fail") = false
            /\ exists response todos,
                 auth_outcome env active w = Returned response
                 /\ r = res_json (JObj [("todos", JArr todos);
                                        ("user", data response)])
                          (mkResponse 200 None))).
Proof.
  intros Hm.
  destruct (get_todos_shape tel Htel env active (arriving tel request w) w)
    as (r & w1 & rest & Hrun & Ht & HF & Hn & Hp & Hr).
  assert (Hbody : body r <> None).
  { destruct Hr as [->|[[_ ->]|(_ & response & todos & _ & ->)]]; discriminate. }
  rewrite (handle_request_todos tel Htel env active request w r w1 Hm Hrun Hbody).
  exists r, w1, rest. repeat split; assumption.
Qed.

End RequestPaths.

Section FailFlag.
Local Open Scope Z_scope.
Local Open Scope string_scope.
Local Open Scope list_scope.

(** Claim C5, amended.  A [GET /todos] request with a truthy fail flag is
    answered with status 500.  When the auth call returns, the store
    lists its keys and every listed key can be read (the read returns
    and a non-empty item parses), the body is the status text that
    [res.sendStatus(500)] sends and one exception is recorded, on the
    active span, if there is an active span (none otherwise).  When the
    auth call throws, the body is the JSON error and the only exception
    recorded is the one [trackInternalApiCall] puts on its own span, if
    the thrown value is an [Error]. *)
Theorem fail_flag_response r0 w0 tel w1 env active request w :
  Tracer.start r0 "todo-service" w0 = (Returned tel, w1) ->
  matches "/todos" request = true ->
  method request <> "HEAD" ->
  truthy (query request !! "fail") = true ->
  exists x w',
    handle_request tel env active request w = (Returned x, w')
    /\ statusCode (res x) = 500
    /\ (forall response keys,
          auth_outcome env active w = Returned response ->
          redis_keys env "todo:*" = Returned keys ->
          Forall (item_ok env) keys ->
          body (res x) = Some (TextBody "Internal Server Error")
          /\ recorded_exceptions (appended w w')
             = match activeSpan active with
               | Some sp => [(sp.1, ErrorObject "Error" "Really bad error!")]
               | None => []
               end)
    /\ (forall e,
          auth_outcome env active w = Raised e ->
          body (res x) = Some (JsonBody ERROR_JSON)
          /\ recorded_exceptions (appended w w')
             = if instanceof_Error e then [(next_span w, e)] else []).
Proof.
  intros Hstart Hm _ Hfail. apply tracer_start_tracks in Hstart.
  destruct (get_todos_run tel Hstart env active (arriving tel request w) w)
    as (r & w2 & delta & Hrun & Hbody & Ht & HF & H500 & Hauth).
  rewrite (handle_request_todos tel Hstart env active request w r w2 Hm Hrun Hbody).
  eexists _, _. split; [reflexivity|].
  cbn [res with_res]. split; [apply H500; exact Hfail|].
  erewrite appended_app
    by (cbn [trace emit]; rewrite Ht, <- app_assoc; reflexivity).
  rewrite recorded_exceptions_app. cbn [recorded_exceptions omap].
  change (omap _ delta) with (recorded_exceptions delta).
  split.
  - intros response keys Hok Hkeys Hitems.
    pose proof (get_todos_success tel Hstart env active (arriving tel request w) w
                  response keys Hok Hkeys Hitems) as Hsuccess.
    rewrite Hrun in Hsuccess. injection Hsuccess as Hr Hw. subst w2.
    cbn [trace] in Ht. apply app_inv_head in Ht. subst delta.
    rewrite (recorded_exceptions_success env active _ w response keys Hok).
    unfold success_response, fail in *.
    cbn [arriving with_route res_on_finish req query] in *.
    rewrite Hfail in *. rewrite app_nil_r. split; [|reflexivity].
    rewrite Hr. reflexivity.
  - intros e He. destruct (Hauth e He) as (-> & _ & ->).
    rewrite app_nil_r. split; reflexivity.
Qed.

(** [GET /todos?fail=1] after a successful bootstrap, with the auth
    endpoint and the store answering and the server span active. *)
Lemma fail_flag_response_witness :
  exists tel w1,
    Tracer.start (Returned tt) "todo-service" initial_world = (Returned tel, w1)
    /\ exists x w',
         handle_request tel env_ok server_span fail_request fresh_world
         = (Returned x, w')
         /\ statusCode (res x) = 500
         /\ body (res x) = Some (TextBody "Internal Server Error")
         /\ recorded_exceptions (appended fresh_world w')
            = [(0%nat, ErrorObject "Error" "Really bad error!")].
Proof.
  eexists _, _. split; [cbn; reflexivity|].
  destruct (fail_flag_response (Returned tt) initial_world _ _ env_ok
              server_span fail_request fresh_world
              eq_refl eq_refl ltac:(intros H; discriminate H) eq_refl)
    as (x & w' & E & H500 & Hok & _).
  assert (Hitems : Forall (item_ok env_ok) ["todo:1"]).
  { repeat constructor. intros _. exists (JObj []). reflexivity. }
  destruct (Hok (mkAxiosResponse 200 (JStr "alice")) ["todo:1"]
              eq_refl eq_refl Hitems) as [Hbody Hrec].
  exists x, w'. repeat split; assumption.
Defined.

End FailFlag.

Section MoreRequests.
Local Open Scope Z_scope.
Local Open Scope string_scope.
Local Open Scope list_scope.

(** The listing.  A [GET /todos] request without the fail flag, when the
    auth call returns and every key the store lists can be read, is
    answered 200 with the JSON object of [todos], the parsed non-empty
    items in the order of the keys, and [user], the body of the auth
    response. *)
Theorem todos_listing r0 w0 tel w1 env active request w response keys :
  Tracer.start r0 "todo-service" w0 = (Returned tel, w1) ->
  matches "/todos" request = true ->
  method request <> "HEAD" ->
  truthy (query request !! "fail") = false ->
  auth_outcome env active w = Returned response ->
  redis_keys env "todo:*" = Returned keys ->
  Forall (item_ok env) keys ->
  exists x w',
    handle_request tel env active request w = (Returned x, w')
    /\ statusCode (res x) = 200
    /\ body (res x)
       = Some (JsonBody (JObj [("todos", JArr (parsed_items env keys));
                               ("user", data response)])).
Proof.
  intros Hstart Hm _ Hfail Hauth Hkeys Hok. apply tracer_start_tracks in Hstart.
  rewrite (handle_request_success tel Hstart env active request w response keys
             Hm Hauth Hkeys Hok).
  eexists _, _. split; [reflexivity|].
  unfold success_response, fail. cbn [arriving with_route res_on_finish req query].
  rewrite Hfail. split; reflexivity.
Qed.

Lemma todos_listing_witness :
  exists tel w1,
    Tracer.start (Returned tt) "todo-service" initial_world = (Returned tel, w1)
    /\ exists x w',
         handle_request tel env_two_items server_span (get_todos_request [])
           fresh_world = (Returned x, w')
         /\ statusCode (res x) = 200
         /\ body (res x)
            = Some (JsonBody (JObj [("todos", JArr [JObj []]);
                                    ("user", JStr "alice")])).
Proof.
  eexists _, _. split; [cbn; reflexivity|].
  assert (Hok : Forall (item_ok env_two_items) ["todo:1"; "todo:2"]).
  { repeat constructor.
    - intros _. exists (JObj []). reflexivity.
    - intros H. discriminate H. }
  exact (todos_listing (Returned tt) initial_world _ _ env_two_items server_span
           (get_todos_request []) fresh_world (mkAxiosResponse 200 (JStr "alice"))
           ["todo:1"; "todo:2"] eq_refl eq_refl ltac:(intros H; discriminate H) eq_refl eq_refl eq_refl
           Hok).
Defined.

(** The store is measured once per call.  When the auth call returns and
    every listed key can be read, a [GET /todos] request records in
    [redis_calls] one observation labelled [keys] and one labelled [get]
    per key, each with the time the store took. *)
Theorem redis_calls_per_read r0 w0 tel w1 env active request w response keys :
  Tracer.start r0 "todo-service" w0 = (Returned tel, w1) ->
  matches "/todos" request = true ->
  auth_outcome env active w = Returned response ->
  redis_keys env "todo:*" = Returned keys ->
  Forall (item_ok env) keys ->
  observations "redis_calls"
    (appended w (handle_request tel env active request w).2)
  = (redis_ms env, [("operation", LString "keys")])
    :: repeat (redis_ms env, [("operation", LString "get")]) (length keys).
Proof.
  intros Hstart Hm Hauth Hkeys Hok. apply tracer_start_tracks in Hstart.
  rewrite (handle_request_success tel Hstart env active request w response keys
             Hm Hauth Hkeys Hok).
  cbn [snd]. erewrite appended_app
    by (cbn [trace emit]; rewrite <- app_assoc; reflexivity).
  rewrite observations_app, redis_calls_success. cbn. rewrite app_nil_r.
  reflexivity.
Qed.

Lemma redis_calls_per_read_witness :
  exists tel w1,
    Tracer.start (Returned tt) "todo-service" initial_world = (Returned tel, w1)
    /\ observations "redis_calls"
         (appended fresh_world
            (handle_request tel env_two_items server_span (get_todos_request [])
               fresh_world).2)
       = [(3, [("operation", LString "keys")]);
          (3, [("operation", LString "get")]);
          (3, [("operation", LString "get")])].
Proof.
  eexists _, _. split; [cbn; reflexivity|].
  assert (Hok : Forall (item_ok env_two_items) ["todo:1"; "todo:2"]).
  { repeat constructor.
    - intros _. exists (JObj []). reflexivity.
    - intros H. discriminate H. }
  exact (redis_calls_per_read (Returned tt) initial_world _ _ env_two_items
           server_span (get_todos_request []) fresh_world
           (mkAxiosResponse 200 (JStr "alice")) ["todo:1"; "todo:2"]
           eq_refl eq_refl eq_refl eq_refl Hok).
Defined.

(** The measured duration.  When the auth call returns and every listed
    key can be read, the one [http_calls] observation of a [GET /todos]
    request carries the time of the auth call, of the listing and of one
    read per key, plus the 5000 ms of the slow flag when it is set; with
    calls that take no negative time, a slow request is measured at 5000
    ms or more. *)
Theorem http_calls_duration r0 w0 tel w1 env active request w response keys :
  Tracer.start r0 "todo-service" w0 = (Returned tel, w1) ->
  matches "/todos" request = true ->
  auth_outcome env active w = Returned response ->
  redis_keys env "todo:*" = Returned keys ->
  Forall (item_ok env) keys ->
  exists d labels,
    observations "http_calls"
      (appended w (handle_request tel env active request w).2) = [(d, labels)]
    /\ d = axios_ms env + redis_ms env * (1 + Z.of_nat (length keys))
           + (if truthy (query request !! "slow") then 5000 else 0)
    /\ (0 <= axios_ms env -> 0 <= redis_ms env ->
        truthy (query request !! "slow") = true -> 5000 <= d).
Proof.
  intros Hstart Hm Hauth Hkeys Hok. apply tracer_start_tracks in Hstart.
  rewrite (handle_request_success tel Hstart env active request w response keys
             Hm Hauth Hkeys Hok).
  cbn [snd]. erewrite appended_app
    by (cbn [trace emit]; rewrite <- app_assoc; reflexivity).
  rewrite observations_app.
  assert (Hnone : observations "http_calls"
                    (success_trace env active (arriving tel request w) w keys) = []).
  { unfold success_trace.
    rewrite observations_app, observations_call_trace. cbn [List.app].
    set (rest := read_trace env keys ++ _).
    change (observations "http_calls" (RedisKeys "todo:*" :: ?m :: rest))
      with (observations "http_calls" rest).
    subst rest. rewrite !observations_app, observations_read_trace.
    destruct (slow _), (fail _); cbn; rewrite ?observations_fail_trace;
      reflexivity. }
  rewrite Hnone. eexists _, _. split; [reflexivity|].
  unfold success_elapsed, slow. cbn [arriving with_route res_on_finish req query].
  split; [reflexivity|].
  intros Ha Hr Hs. rewrite Hs. nia.
Qed.

Lemma http_calls_duration_witness :
  exists tel w1,
    Tracer.start (Returned tt) "todo-service" initial_world = (Returned tel, w1)
    /\ exists d labels,
         observations "http_calls"
           (appended fresh_world
              (handle_request tel env_two_items server_span slow_request
                 fresh_world).2) = [(d, labels)]
         /\ d = 5016 /\ 5000 <= d.
Proof.
  eexists _, _. split; [cbn; reflexivity|].
  assert (Hok : Forall (item_ok env_two_items) ["todo:1"; "todo:2"]).
  { repeat constructor.
    - intros _. exists (JObj []). reflexivity.
    - intros H. discriminate H. }
  destruct (http_calls_duration (Returned tt) initial_world _ _ env_two_items
              server_span slow_request fresh_world
              (mkAxiosResponse 200 (JStr "alice")) ["todo:1"; "todo:2"]
              eq_refl eq_refl eq_refl eq_refl Hok)
    as (d & labels & Hobs & Hd & Hslow).
  exists d, labels. split; [exact Hobs|]. split; [rewrite Hd; reflexivity|].
  apply Hslow; [cbn; lia|cbn; lia|reflexivity].
Defined.

End MoreRequests.

Section FailingStore.
Local Open Scope Z_scope.
Local Open Scope string_scope.
Local Open Scope list_scope.

(** The listing of keys fails.  When the auth call returns and
    [redis.keys] throws, the request is answered 500 with the JSON error;
    the listing is the only command sent to the store and [redis_calls]
    records nothing: a failed call is not measured. *)
Theorem keys_failure_answered r0 w0 tel w1 env active request w response e :
  Tracer.start r0 "todo-service" w0 = (Returned tel, w1) ->
  matches "/todos" request = true ->
  method request <> "HEAD" ->
  auth_outcome env active w = Returned response ->
  redis_keys env "todo:*" = Raised e ->
  exists x w',
    handle_request tel env active request w = (Returned x, w')
    /\ res x = mkResponse 500 (Some (JsonBody ERROR_JSON))
    /\ store_commands (appended w w') = [RedisKeys "todo:*"]
    /\ observations "redis_calls" (appended w w') = [].
Proof.
  intros Hstart Hm _ Hauth Hkeys. apply tracer_start_tracks in Hstart.
  pose proof (get_todos_keys_down tel env active (arriving tel request w) w
                response e Hauth Hkeys) as Hrun.
  rewrite (handle_request_todos tel Hstart env active request w _ _ Hm Hrun)
    by discriminate.
  eexists _, _. split; [reflexivity|]. split; [reflexivity|].
  erewrite appended_app
    by (cbn [trace emit]; rewrite <- !app_assoc; reflexivity).
  split.
  - unfold store_commands. rewrite List.filter_app.
    fold (store_commands (call_trace env active w)).
    rewrite store_commands_call_trace. reflexivity.
  - rewrite observations_app, observations_call_trace. reflexivity.
Qed.

Lemma keys_failure_answered_witness :
  exists tel w1,
    Tracer.start (Returned tt) "todo-service" initial_world = (Returned tel, w1)
    /\ exists x w',
         handle_request tel env_keys_down server_span (get_todos_request [])
           fresh_world = (Returned x, w')
         /\ res x = mkResponse 500 (Some (JsonBody ERROR_JSON))
         /\ store_commands (appended fresh_world w') = [RedisKeys "todo:*"]
         /\ observations "redis_calls" (appended fresh_world w') = [].
Proof.
  eexists _, _. split; [cbn; reflexivity|].
  exact (keys_failure_answered (Returned tt) initial_world _ _ env_keys_down
           server_span (get_todos_request []) fresh_world
           (mkAxiosResponse 200 (JStr "alice")) CONNECTION_REFUSED
           eq_refl eq_refl ltac:(intros H; discriminate H) eq_refl eq_refl).
Defined.

(** An item cannot be read.  When the auth call returns and, among the
    listed keys, the first one whose read throws or whose item does not
    parse is [k], the request is answered 500 with the JSON error; the
    store has been asked for the listing and for the items up to [k], in
    that order, and for none of the keys after [k]. *)
Theorem item_failure_answered r0 w0 tel w1 env active request w response
    pre k post e :
  Tracer.start r0 "todo-service" w0 = (Returned tel, w1) ->
  matches "/todos" request = true ->
  method request <> "HEAD" ->
  auth_outcome env active w = Returned response ->
  redis_keys env "todo:*" = Returned (pre ++ k :: post) ->
  Forall (item_ok env) pre -> item_fails env k e ->
  exists x w',
    handle_request tel env active request w = (Returned x, w')
    /\ res x = mkResponse 500 (Some (JsonBody ERROR_JSON))
    /\ store_commands (appended w w')
       = RedisKeys "todo:*" :: map RedisGet (pre ++ [k]).
Proof.
  intros Hstart Hm _ Hauth Hkeys Hok Hfail. apply tracer_start_tracks in Hstart.
  destruct (get_todos_item_fails tel Hstart env active (arriving tel request w) w
              response pre k post e Hauth Hkeys Hok Hfail)
    as (w2 & rest & Hrun & Ht & Hcmd).
  rewrite (handle_request_todos tel Hstart env active request w _ _ Hm Hrun)
    by discriminate.
  eexists _, _. split; [reflexivity|]. split; [reflexivity|].
  erewrite appended_app
    by (cbn [trace emit]; rewrite Ht, <- !app_assoc; reflexivity).
  unfold store_commands. rewrite !List.filter_app.
  fold (store_commands (call_trace env active w)).
  rewrite store_commands_call_trace. fold (store_commands rest).
  rewrite Hcmd. cbn. rewrite app_nil_r. reflexivity.
Qed.

Lemma item_failure_answered_witness :
  exists tel w1,
    Tracer.start (Returned tt) "todo-service" initial_world = (Returned tel, w1)
    /\ exists x w',
         handle_request tel env_read_down server_span (get_todos_request [])
           fresh_world = (Returned x, w')
         /\ res x = mkResponse 500 (Some (JsonBody ERROR_JSON))
         /\ store_commands (appended fresh_world w')
            = [RedisKeys "todo:*"; RedisGet "todo:1"; RedisGet "todo:2"].
Proof.
  eexists _, _. split; [cbn; reflexivity|].
  assert (Hok : Forall (item_ok env_read_down) ["todo:1"]).
  { repeat constructor. intros _. exists (JObj []). reflexivity. }
  exact (item_failure_answered (Returned tt) initial_world _ _ env_read_down
           server_span (get_todos_request []) fresh_world
           (mkAxiosResponse 200 (JStr "alice")) ["todo:1"] "todo:2" ["todo:3"]
           CONNECTION_REFUSED eq_refl eq_refl
           ltac:(intros H; discriminate H) eq_refl eq_refl Hok
           (or_introl eq_refl)).
Defined.

End FailingStore.

Section EveryRequest.
Local Open Scope Z_scope.
Local Open Scope string_scope.
Local Open Scope list_scope.

(** The status tells the outcome.  Every [GET /todos] request is answered
    with status 500 or 200; it is 200 only when the fail flag is not set
    and the auth call returned, and then the body is the JSON object
    with the fields [todos] and [user], the latter the body of the auth
    response. *)
Theorem status_tells_outcome r0 w0 tel w1 env active request w :
  Tracer.start r0 "todo-service" w0 = (Returned tel, w1) ->
  matches "/todos" request = true ->
  method request <> "HEAD" ->
  exists x w',
    handle_request tel env active request w = (Returned x, w')
    /\ (statusCode (res x) = 500
        \/ (statusCode (res x) = 200
            /\ truthy (query request !! "fail") = false
            /\ exists response todos,
                 auth_outcome env active w = Returned response
                 /\ body (res x)
                    = Some (JsonBody (JObj [("todos", JArr todos);
                                            ("user", data response)])))).
Proof.
  intros Hstart Hm _. apply tracer_start_tracks in Hstart.
  destruct (handle_request_shape tel Hstart env active request w Hm)
    as (r & w2 & rest & Hrun & _ & _ & _ & _ & Hr).
  rewrite Hrun. eexists _, _. split; [reflexivity|]. cbn [res with_res].
  destruct Hr as [->|[[_ ->]|(Hfail & response & todos & Hauth & ->)]].
  - left. reflexivity.
  - left. reflexivity.
  - right. split; [reflexivity|]. split; [exact Hfail|].
    exists response, todos. split; [exact Hauth|reflexivity].
Qed.

Lemma status_tells_outcome_witness :
  exists tel w1,
    Tracer.start (Returned tt) "todo-service" initial_world = (Returned tel, w1)
    /\ exists x w',
         handle_request tel env_keys_down server_span (get_todos_request [])
           fresh_world = (Returned x, w')
         /\ (statusCode (res x) = 500
             \/ (statusCode (res x) = 200
                 /\ truthy (query (get_todos_request []) !! "fail") = false
                 /\ exists response todos,
                      auth_outcome env_keys_down server_span fresh_world
                      = Returned response
                      /\ body (res x)
                         = Some (JsonBody (JObj [("todos", JArr todos);
                                                 ("user", data response)])))).
Proof.
  eexists _, _. split; [cbn; reflexivity|].
  exact (status_tells_outcome (Returned tt) initial_world _ _ env_keys_down
           server_span (get_todos_request []) fresh_world eq_refl eq_refl
           ltac:(intros H; discriminate H)).
Defined.

(** No span is left open.  Handling a [GET /todos] request starts exactly
    one span, the one of the auth call, and ends exactly that span, once,
    whatever the auth call and the store do. *)
Theorem request_spans_closed r0 w0 tel w1 env active request w :
  Tracer.start r0 "todo-service" w0 = (Returned tel, w1) ->
  matches "/todos" request = true ->
  exists x w',
    handle_request tel env active request w = (Returned x, w')
    /\ started (appended w w') = [next_span w]
    /\ ended (appended w w') = [next_span w]
    /\ next_span w' = S (next_span w).
Proof.
  intros Hstart Hm. apply tracer_start_tracks in Hstart.
  destruct (handle_request_shape tel Hstart env active request w Hm)
    as (r & w2 & rest & Hrun & Ht & HF & Hn & _ & _).
  rewrite Hrun. eexists _, _. split; [reflexivity|].
  erewrite appended_app
    by (cbn [trace emit]; rewrite Ht, <- !app_assoc; reflexivity).
  destruct (tail_quiet active rest HF) as (Hs & He & _).
  unfold started, ended in *. rewrite !omap_app.
  fold (started (call_trace env active w)). fold (ended (call_trace env active w)).
  rewrite started_call_trace, ended_call_trace, Hs, He.
  repeat split. exact Hn.
Qed.

Lemma request_spans_closed_witness :
  exists tel w1,
    Tracer.start (Returned tt) "todo-service" initial_world = (Returned tel, w1)
    /\ exists x w',
         handle_request tel (env_throwing CONNECTION_REFUSED) server_span
           fail_request fresh_world = (Returned x, w')
         /\ started (appended fresh_world w') = [1%nat]
         /\ ended (appended fresh_world w') = [1%nat]
         /\ next_span w' = 2%nat.
Proof.
  eexists _, _. split; [cbn; reflexivity|].
  exact (request_spans_closed (Returned tt) initial_world _ _
           (env_throwing CONNECTION_REFUSED) server_span fail_request fresh_world
           eq_refl eq_refl).
Defined.

(** One outbound call.  Handling a [GET /todos] request makes exactly one
    outbound request, a GET to the auth endpoint.  Its headers are what
    the registered propagator injects for the active span together with
    the baggage [user.plan = enterprise] alone, whatever baggage came in;
    without a registered propagator there are no headers. *)
Theorem one_outbound_call r0 w0 tel w1 env active request w :
  Tracer.start r0 "todo-service" w0 = (Returned tel, w1) ->
  matches "/todos" request = true ->
  outbound (appended w (handle_request tel env active request w).2)
  = [("GET", "http://auth:8080/auth",
      match propagator w with
      | Some p =>
          inject p
            (mkContext (option_map snd (activeSpan active))
               [("user.plan", mkEntry "enterprise" None)]) ∅
      | None => ∅
      end)].
Proof.
  intros Hstart Hm. apply tracer_start_tracks in Hstart.
  destruct (handle_request_shape tel Hstart env active request w Hm)
    as (r & w2 & rest & Hrun & Ht & HF & _).
  rewrite Hrun. cbn [snd].
  erewrite appended_app
    by (cbn [trace emit]; rewrite Ht, <- !app_assoc; reflexivity).
  destruct (tail_quiet active rest HF) as (_ & _ & Ho).
  unfold outbound in *. rewrite !omap_app.
  fold (outbound (call_trace env active w)).
  rewrite outbound_call_trace, Ho. reflexivity.
Qed.

Lemma one_outbound_call_witness :
  exists tel w1,
    Tracer.start (Returned tt) "todo-service" initial_world = (Returned tel, w1)
    /\ outbound
         (appended fresh_world
            (handle_request tel env_ok incoming_baggage (get_todos_request [])
               fresh_world).2)
       = [("GET", "http://auth:8080/auth", ∅)].
Proof.
  eexists _, _. split; [cbn; reflexivity|].
  exact (one_outbound_call (Returned tt) initial_world _ _ env_ok
           incoming_baggage (get_todos_request []) fresh_world eq_refl eq_refl).
Defined.

(** Two instruments only.  Handling a request records observations in
    [http_calls] and [redis_calls] and in no other instrument: not in
    [error_count], [span_duration_seconds] or [span_error_count]. *)
Theorem only_two_instruments r0 w0 tel w1 env active request w n :
  Tracer.start r0 "todo-service" w0 = (Returned tel, w1) ->
  n <> "http_calls" -> n <> "redis_calls" ->
  observations n (appended w (handle_request tel env active request w).2) = [].
Proof.
  intros Hstart Hh Hr. apply tracer_start_tracks in Hstart.
  assert (Hobs : forall d x, observations n [http_calls_observation d x] = []).
  { intros d x. cbn -[String.eqb].
    destruct (String.eqb_spec "http_calls" n) as [E|E]; [congruence|reflexivity]. }
  destruct (matches "/todos" request) eqn:Hm.
  - destruct (get_todos_run tel Hstart env active (arriving tel request w) w)
      as (r & w2 & delta & Hrun & Hbody & Ht & HF & _).
    rewrite (handle_request_todos tel Hstart env active request w r w2 Hm Hrun Hbody).
    cbn [snd].
    erewrite appended_app
      by (cbn [trace emit]; rewrite Ht, <- app_assoc; reflexivity).
    rewrite observations_app, (observations_store_only _ delta) by assumption.
    apply Hobs.
  - destruct (handle_request_other tel Hstart env active request w Hm)
      as (x & Hrun & _).
    rewrite Hrun. cbn [snd].
    erewrite appended_app by (cbn [trace emit]; reflexivity).
    apply Hobs.
Qed.

Lemma only_two_instruments_witness :
  exists tel w1,
    Tracer.start (Returned tt) "todo-service" initial_world = (Returned tel, w1)
    /\ observations "span_error_count"
         (appended fresh_world
            (handle_request tel (env_throwing CONNECTION_REFUSED) server_span
               fail_request fresh_world).2) = [].
Proof.
  eexists _, _. split; [cbn; reflexivity|].
  refine (only_two_instruments (Returned tt) initial_world _ _
            (env_throwing CONNECTION_REFUSED) server_span fail_request fresh_world
            "span_error_count" eq_refl _ _); intros H; discriminate H.
Defined.

(** What the route takes: GET and HEAD, the path in any case and with
    or without one trailing slash; nothing else. *)
Lemma routed_requests :
  let request m p := mkRequest m p ∅ None in
  matches "/todos" (request "GET" "/todos") = true
  /\ matches "/todos" (request "HEAD" "/todos") = true
  /\ matches "/todos" (request "GET" "/todos/") = true
  /\ matches "/todos" (request "GET" "/TODOS") = true
  /\ matches "/todos" (request "POST" "/todos") = false
  /\ matches "/todos" (request "OPTIONS" "/todos") = false
  /\ matches "/todos" (request "GET" "/todos//") = false
  /\ matches "/todos" (request "GET" "/todos/1") = false
  /\ matches "/todos" (request "GET" "/") = false.
Proof. repeat split. Qed.



End EveryRequest.

Section CallSpan.
Local Open Scope Z_scope.
Local Open Scope string_scope.
Local Open Scope list_scope.

(** The span of an outbound call.  [trackInternalApiCall] starts one span
    and sends one request, with the method and the address it was given
    and the headers injected from the active context; its third
    argument plays no part.  The attributes [http.status_code],
    [http.method] and [http.url] are set, in that order, exactly when
    the call returned; a call that throws leaves the span without
    attributes. *)
Theorem call_span_attributes env active url method baggage w :
  let run := trackInternalApiCall env active url method baggage w in
  let delta := appended w run.2 in
  started delta = [next_span w]
  /\ outbound delta = [(method, url, sent_headers active w)]
  /\ List.filter is_SetAttribute (span_ops (next_span w) delta)
     = match run.1 with
       | Returned response =>
           [SetAttribute "http.status_code" (LNumber (status response));
            SetAttribute "http.method" (LString method);
            SetAttribute "http.url" (LString url)]
       | Raised _ => []
       end.
Proof.
  cbv zeta. rewrite trackInternalApiCall_run. cbn [fst snd].
  erewrite appended_app by (cbn [trace]; reflexivity).
  split; [|split].
  - cbn. rewrite started_events. reflexivity.
  - cbn. rewrite outbound_events. reflexivity.
  - change (span_ops (next_span w) (?a :: ?b :: ?l)) with (span_ops (next_span w) l).
    rewrite span_ops_events.
    destruct (axios env method url (sent_headers active w)) as [response|error];
      cbn [call_ops]; [reflexivity|].
    destruct (instanceof_Error error); reflexivity.
Qed.

End CallSpan.

Section Bootstrap.
Local Open Scope Z_scope.
Local Open Scope string_scope.
Local Open Scope list_scope.

(** The metrics do not wait for the SDK.  Whatever [sdk.start()] does,
    both bootstraps register one global meter provider, carrying the
    resource of the service and the periodic OTLP reader followed by the
    Prometheus exporter; they return the same handle and leave the same
    effects apart from the start of the SDK and the console message
    about it. *)
Theorem metrics_independent_of_sdk (r r' : Outcome unit) (serviceName : string)
    (w : World) :
  let a := Tracer.start r serviceName w in
  let a' := Tracer.start r' serviceName w in
  let b := TracerVariant.start r serviceName w in
  let b' := TracerVariant.start r' serviceName w in
  meter_providers (appended w a.2) = [expected_provider serviceName]
  /\ meter_providers (appended w b.2) = [expected_provider serviceName]
  /\ a.1 = a'.1 /\ b.1 = b'.1
  /\ List.filter (fun e => negb (is_sdk e)) (appended w a.2)
     = List.filter (fun e => negb (is_sdk e)) (appended w a'.2)
  /\ List.filter (fun e => negb (is_sdk e)) (appended w b.2)
     = List.filter (fun e => negb (is_sdk e)) (appended w b'.2).
Proof.
  cbv zeta. unfold appended.
  destruct r as [[]|e], r' as [[]|e']; cbn;
    rewrite <- ?app_assoc, !drop_app_length; repeat split.
Qed.

(** A service whose SDK did not start.  When [sdk.start()] throws in a
    process without a propagator, the service still handles a
    [GET /todos] request and makes its auth call, but the call carries
    no header at all: neither the trace context nor the baggage reach
    the auth service.  When [sdk.start()] returns, the headers are those
    the composite propagator injects for the active span and the
    [user.plan] baggage. *)
Theorem headers_need_sdk r env active request w :
  matches "/todos" request = true ->
  propagator w = None ->
  outbound (appended w (serve r env active request w).2)
  = [("GET", "http://auth:8080/auth",
      match r with
      | Returned _ =>
          inject (CompositePropagator
                    [W3CTraceContextPropagator; W3CBaggagePropagator])
            (mkContext (option_map snd (activeSpan active))
               [("user.plan", mkEntry "enterprise" None)]) ∅
      | Raised _ => ∅
      end)].
Proof.
  intros Hm Hp. unfold serve.
  destruct (tracer_start_returns r "todo-service" w) as (tel & w1 & Hs & _ & Htel).
  assert (Hboot : exists boot,
            trace (Tracer.start r "todo-service" w).2 = trace w ++ boot
            /\ outbound boot = []
            /\ propagator (Tracer.start r "todo-service" w).2
               = match r with
                 | Returned _ =>
                     Some (CompositePropagator
                             [W3CTraceContextPropagator; W3CBaggagePropagator])
                 | Raised _ => None
                 end).
  { destruct r as [[]|e]; cbn; rewrite <- ?app_assoc;
      (eexists; split; [reflexivity|]); split; try reflexivity; exact Hp. }
  rewrite Hs in Hboot. cbn [snd] in Hboot.
  destruct Hboot as (boot & Hb & Hob & Hpw).
  cbv beta delta [bind]. rewrite Hs.
  destruct (handle_request_shape tel Htel env active request w1 Hm)
    as (x & w2 & rest & Hrun & Ht & HF & _).
  rewrite Hrun. cbn [snd].
  erewrite appended_app
    by (cbn [trace emit]; rewrite Ht, Hb, <- !app_assoc; reflexivity).
  destruct (tail_quiet active rest HF) as (_ & _ & Ho).
  unfold outbound in *. rewrite !omap_app.
  fold (outbound (call_trace env active w1)).
  rewrite outbound_call_trace, Ho, Hob. cbn [List.app].
  unfold sent_headers. rewrite Hpw. destruct r; reflexivity.
Qed.

Lemma headers_need_sdk_witness :
  outbound
    (appended initial_world
       (serve (Raised CONNECTION_REFUSED) env_ok server_span
          (get_todos_request []) initial_world).2)
  = [("GET", "http://auth:8080/auth", ∅)].
Proof.
  exact (headers_need_sdk (Raised CONNECTION_REFUSED) env_ok server_span
           (get_todos_request []) initial_world eq_refl eq_refl).
Defined.

End Bootstrap.

Section Seeding.
Local Open Scope Z_scope.
Local Open Scope string_scope.
Local Open Scope list_scope.

Variable stringify : Json -> string.
Variable redis_set : string -> string -> Outcome unit.

Lemma find_absent {A} (k : string) (items : list (string * A)) :
  k ∉ items.*1 -> List.find (fun kv => String.eqb kv.1 k) items = None.
Proof.
  induction items as [|[k0 j0] items IH]; [reflexivity|].
  intros Hk. cbn. destruct (String.eqb_spec k0 k) as [->|Hne].
  - exfalso. apply Hk. cbn. left.
  - apply IH. intros Hin. apply Hk. cbn. right. exact Hin.
Qed.

(** The writes are all issued: every accepted one lands, whatever
    happens to the others. *)
Lemma set_all_lookup (items : list (string * Json)) :
  NoDup items.*1 -> forall store k,
  (set_all redis_set (map (fun kv => (kv.1, stringify kv.2)) items) store).2 !! k
  = match snd <$> List.find (fun kv => String.eqb kv.1 k) items with
    | Some j =>
        match redis_set k (stringify j) with
        | Returned _ => Some (stringify j)
        | Raised _ => store !! k
        end
    | None => store !! k
    end.
Proof.
  induction items as [|[k0 j0] items IH]; intros Hnd store k; [reflexivity|].
  cbn in Hnd. apply NoDup_cons in Hnd as [Hk0 Hnd].
  cbn [map set_all fst snd List.find].
  destruct (String.eqb_spec k0 k) as [->|Hne].
  - cbn [fmap option_fmap option_map snd].
    destruct (redis_set k (stringify j0)) as [u|e]; cbn [snd];
      rewrite (IH Hnd), (find_absent k items Hk0); cbn.
    + apply lookup_insert_eq.
    + reflexivity.
  - destruct (redis_set k0 (stringify j0)) as [u|e]; cbn [snd]; rewrite (IH Hnd).
    + rewrite lookup_insert_ne by exact Hne. reflexivity.
    + reflexivity.
Qed.

Lemma set_all_outcome (writes : list (string * string)) : forall store,
  match (set_all redis_set writes store).1 with
  | Returned _ => Forall (fun kv => exists u, redis_set kv.1 kv.2 = Returned u) writes
  | Raised e => Exists (fun kv => redis_set kv.1 kv.2 = Raised e) writes
  end.
Proof.
  induction writes as [|[k v] writes IH]; intros store; [constructor|].
  cbn [set_all]. destruct (redis_set k v) as [u|e] eqn:E.
  - specialize (IH (<[k:=v]> store)).
    destruct (set_all redis_set writes (<[k:=v]> store)).1.
    + constructor; [exists u; exact E|exact IH].
    + apply Exists_cons_tl. exact IH.
  - cbn [fst]. apply Exists_cons_hd. exact E.
Qed.

Lemma default_keys_distinct : NoDup DEFAULT_ITEMS.*1.
Proof.
  cbn. repeat (apply NoDup_cons; split;
               [rewrite ?elem_of_cons, elem_of_nil; intros H;
                repeat (destruct H as [H|H]; [discriminate H|]); exact H|]).
  apply NoDup_nil_2.
Qed.

Lemma default_item_listed k j :
  default_item k = Some j -> In (k, j) DEFAULT_ITEMS.
Proof.
  unfold default_item, DEFAULT_ITEMS. cbn -[String.eqb].
  repeat (match goal with
          | |- context [String.eqb ?a k] => destruct (String.eqb_spec a k) as [<-|_]
          end; cbn -[String.eqb]; [intros [= <-]; tauto|]).
  discriminate.
Qed.

(** The span of [init].  [init] starts the span [Set default items] and
    asks the store for the four writes.  The span is ended exactly when
    every write was accepted; once a write is refused, the refusal
    escapes and the span is never ended. *)
Theorem init_span_ended_iff_stored set_ms store w :
  let run := (init stringify redis_set set_ms store w).1 in
  let delta := appended w run.2 in
  started delta = [next_span w]
  /\ match run.1 with
     | Returned _ =>
         Forall (fun kv => exists u, redis_set kv.1 (stringify kv.2) = Returned u)
           DEFAULT_ITEMS
         /\ ended delta = [next_span w]
     | Raised e =>
         Exists (fun kv => redis_set kv.1 (stringify kv.2) = Raised e)
           DEFAULT_ITEMS
         /\ ended delta = []
     end.
Proof.
  cbv zeta. unfold init. cbn [fst].
  pose proof (set_all_outcome
                (map (fun kv => (kv.1, stringify kv.2)) DEFAULT_ITEMS) store) as Hout.
  cbv beta delta [bind]. unfold startSpan, await, span_op, effect, emit, advance.
  cbn [fst snd now next_span propagator trace].
  destruct (set_all redis_set _ store).1 as [u|e].
  - cbn [fst snd]. erewrite appended_app
      by (cbn [trace]; rewrite <- !app_assoc; reflexivity).
    split; [reflexivity|]. split; [|reflexivity].
    exact (proj1 (Forall_fmap (fun kv : string * Json => (kv.1, stringify kv.2))
                    (fun kv => exists u, redis_set kv.1 kv.2 = Returned u)
                    DEFAULT_ITEMS) Hout).
  - cbn [fst snd]. erewrite appended_app by (cbn [trace]; reflexivity).
    split; [reflexivity|]. split; [|reflexivity].
    exact (proj1 (Exists_fmap (fun kv : string * Json => (kv.1, stringify kv.2))
                    (fun kv => redis_set kv.1 kv.2 = Raised e)
                    DEFAULT_ITEMS) Hout).
Qed.

(** What [init] leaves in the store.  Under the key of a default item
    the store holds the serialised item when that write was accepted,
    also when another write was refused; a refused write and every other
    key leave the store as it was. *)
Theorem init_store set_ms store w k :
  (init stringify redis_set set_ms store w).2 !! k
  = match default_item k with
    | Some j =>
        match redis_set k (stringify j) with
        | Returned _ => Some (stringify j)
        | Raised _ => store !! k
        end
    | None => store !! k
    end.
Proof.
  unfold init. cbn [snd]. apply set_all_lookup, default_keys_distinct.
Qed.

End Seeding.

Section SeedThenList.
Local Open Scope Z_scope.
Local Open Scope string_scope.
Local Open Scope list_scope.

(** Seeding, then listing.  Once [init] has run with every write
    accepted, a [GET /todos] request without the fail flag, whose auth
    call returns, is answered 200 with the default items of the listed
    keys, in the order of the listing, provided the store answers reads
    with what [init] left there and parsing undoes the serialisation of
    the default items. *)
Theorem seeded_items_listed r0 w0 tel w1 env active request w response
    stringify redis_set set_ms store wi keys :
  Tracer.start r0 "todo-service" w0 = (Returned tel, w1) ->
  matches "/todos" request = true ->
  method request <> "HEAD" ->
  truthy (query request !! "fail") = false ->
  auth_outcome env active w = Returned response ->
  Forall (fun kv => redis_set kv.1 (stringify kv.2) = Returned tt) DEFAULT_ITEMS ->
  (forall k, redis_get env k
             = Returned ((init stringify redis_set set_ms store wi).2 !! k)) ->
  redis_keys env "todo:*" = Returned keys ->
  Forall (fun k => is_Some (default_item k)) keys ->
  (forall k j, In (k, j) DEFAULT_ITEMS ->
     stringify j <> EmptyString /\ JSON_parse env (stringify j) = Returned j) ->
  exists x w',
    handle_request tel env active request w = (Returned x, w')
    /\ res x
       = mkResponse 200
           (Some (JsonBody (JObj [("todos", JArr (omap default_item keys));
                                  ("user", data response)]))).
Proof.
  intros Hstart Hm _ Hfail Hauth Hacc Hget Hkeys Hdef Hparse.
  apply tracer_start_tracks in Hstart.
  assert (Hread : forall k j, default_item k = Some j ->
            redis_get env k = Returned (Some (stringify j))
            /\ truthy (Some (stringify j)) = true
            /\ JSON_parse env (stringify j) = Returned j).
  { intros k j Hk. pose proof (default_item_listed k j Hk) as Hin.
    destruct (Hparse k j Hin) as [Hne Hp].
    rewrite Forall_forall in Hacc.
    pose proof (Hacc (k, j) (proj2 (list_elem_of_In _ _) Hin)) as Hk'.
    cbn [fst snd] in Hk'.
    rewrite Hget. unfold init. cbn [snd].
    rewrite (set_all_lookup stringify redis_set DEFAULT_ITEMS default_keys_distinct).
    fold (default_item k). rewrite Hk.
    rewrite Hk'.
    split; [reflexivity|]. split; [|exact Hp].
    cbn. destruct (String.eqb_spec (stringify j) EmptyString); [contradiction|reflexivity]. }
  assert (Hok : Forall (item_ok env) keys).
  { eapply Forall_impl; [exact Hdef|]. intros k [j Hk].
    destruct (Hread k j Hk) as (Hg & _ & Hp). unfold item_ok. rewrite Hg.
    intros _. exists j. exact Hp. }
  assert (Hitems : parsed_items env keys = omap default_item keys).
  { clear Hkeys Hok. induction Hdef as [|k keys [j Hk] _ IH]; [reflexivity|].
    destruct (Hread k j Hk) as (Hg & Ht & Hp).
    cbn [parsed_items]. rewrite Hg, Ht, Hp, IH.
    change (omap default_item (k :: keys))
      with (match default_item k with
            | Some y => y :: omap default_item keys
            | None => omap default_item keys
            end).
    rewrite Hk. reflexivity. }
  rewrite (handle_request_success tel Hstart env active request w response keys
             Hm Hauth Hkeys Hok).
  eexists _, _. split; [reflexivity|]. cbn [res with_res].
  unfold success_response, fail. cbn [req arriving].
  replace (truthy (query (req (arriving tel request w)) !! "fail")) with false
    by (symmetry; exact Hfail).
  rewrite Hitems. reflexivity.
Qed.

Lemma seeded_items_listed_witness :
  exists tel w1,
    Tracer.start (Returned tt) "todo-service" initial_world = (Returned tel, w1)
    /\ exists x w',
         handle_request tel env_after_init server_span (get_todos_request [])
           fresh_world = (Returned x, w')
         /\ res x
            = mkResponse 200
                (Some (JsonBody
                         (JObj [("todos",
                                 JArr [JObj [("name", JStr "Configure sampling rule")];
                                       JObj [("name", JStr "Install OpenTelemetry SDK")]]);
                                ("user", JStr "alice")]))).
Proof.
  eexists _, _. split; [cbn; reflexivity|].
  assert (Hacc : Forall (fun kv => accept_all kv.1 (name_of kv.2) = Returned tt)
                   DEFAULT_ITEMS).
  { repeat constructor. }
  assert (Hdef : Forall (fun k => is_Some (default_item k)) ["todo:3"; "todo:1"]).
  { repeat constructor; eexists; reflexivity. }
  assert (Hparse : forall k j, In (k, j) DEFAULT_ITEMS ->
            name_of j <> EmptyString
            /\ JSON_parse env_after_init (name_of j) = Returned j).
  { intros k j Hin. cbn in Hin.
    repeat (destruct Hin as [[= <- <-]|Hin]; [split; [discriminate|reflexivity]|]).
    contradiction. }
  exact (seeded_items_listed (Returned tt) initial_world _ _ env_after_init
           server_span (get_todos_request []) fresh_world
           (mkAxiosResponse 200 (JStr "alice")) name_of accept_all 2 ∅
           initial_world ["todo:3"; "todo:1"]
           eq_refl eq_refl ltac:(intros H; discriminate H) eq_refl eq_refl Hacc (fun k => eq_refl) eq_refl
           Hdef Hparse).
Defined.

End SeedThenList.
